(** * darkgreybox.fit: training orchestration, embedded and verified

    A shallow embedding of [src/darkgreybox/fit.py]: [get_ic_params],
    [train_model], [train_models] and [reduce_results_df].

    Conventions of the embedding.
    - Python floats are extended rationals ([pyfloat]): a NaN, the two
      infinities and the finite values; the rounding of the error column
      follows binary64 arithmetic (each operation rounded to the nearest
      value, overflow to infinity), clock readings are subtracted exactly.
    - A [pandas.DataFrame] of inputs is a list of column labels and a list of
      labelled rows; a [pandas.Series] is a list of labelled values.
    - Python objects (models, prediction results) live in a heap indexed by
      references; the interpreter state [World] is that heap and the reading
      of the wall clock.
    - Code that can raise or touch the heap is written in the monad [M]
      (state and exceptions).
    - The model family, the error metric and [joblib.Parallel] are
      collaborators outside the module; they appear as operations of the class
      [Collaborators] and as function arguments, and what is assumed about
      them is stated as hypotheses of the theorems that need it. *)

From Stdlib Require Import QArith Qcanon Qround Qabs Ascii String.
From stdpp Require Import base numbers strings gmap sorting option list.

Open Scope Z_scope.

(** ** Python values *)

Inductive pyfloat : Type :=
  | NaN
  | Inf (negative : bool)
  | Fin (q : Qc).

Definition loc := positive.

#[warnings="-register-all"]
Inductive pyval : Type :=
  | PNone
  | PFloat (f : pyfloat)
  | PInt (z : Z)
  | PStr (s : string)
  | PRef (l : loc)
  | PSeries (vs : list pyval).

(** [ValueError] stands for the class and its subclasses, as
    [except ValueError] matches them. *)
Inductive exn : Type :=
  | ValueError
  | KeyError
  | IndexError
  | AttributeError
  | OtherError (name : string).

Inductive result (A : Type) : Type :=
  | Ok (a : A)
  | Raise (e : exn).
Arguments Ok {A} a.
Arguments Raise {A} e.

Definition is_ValueError (e : exn) : bool :=
  match e with ValueError => true | _ => false end.

Definition rbind {A B} (r : result A) (f : A -> result B) : result B :=
  match r with
  | Ok a => f a
  | Raise e => Raise e
  end.

Fixpoint rmapM {A B} (f : A -> result B) (l : list A) : result (list B) :=
  match l with
  | [] => Ok []
  | x :: t => rbind (f x) (fun y => rbind (rmapM f t) (fun ys => Ok (y :: ys)))
  end.

(** [seq[i]] on a Python sequence: negative positions count from the end,
    positions out of range raise [IndexError]. *)
Definition py_index {A} (l : list A) (i : Z) : result A :=
  let n := Z.of_nat (length l) in
  let j := if i <? 0 then n + i else i in
  if (0 <=? j) && (j <? n) then
    match l !! Z.to_nat j with
    | Some x => Ok x
    | None => Raise IndexError
    end
  else Raise IndexError.

(** ** Input windows *)

(** [rows] pairs each index label with the cells of that row, in column
    order. *)
Record DataFrame : Type := {
  columns : list string;
  rows : list (pyval * list pyval)
}.

Abbreviation Series := (list (pyval * pyval)).

Definition df_len (X : DataFrame) : nat := length (rows X).

(** [X.index[i]] *)
Definition df_index (X : DataFrame) (i : Z) : result pyval :=
  py_index (fst <$> rows X) i.

(** [X.iloc[idx]] for a list of row positions *)
Definition df_iloc (X : DataFrame) (idx : list Z) : result DataFrame :=
  rbind (rmapM (py_index (rows X)) idx)
        (fun rs => Ok {| columns := columns X; rows := rs |}).

(** [y.iloc[idx]] *)
Definition series_iloc (y : Series) (idx : list Z) : result Series :=
  rmapM (py_index y) idx.

(** [y.values] *)
Definition series_values (y : Series) : list pyval := snd <$> y.

(** [X.iloc[0]]: the first row as a series labelled by the columns *)
Definition df_iloc0 (X : DataFrame) : result (list (string * pyval)) :=
  rbind (py_index (rows X) 0) (fun r => Ok (zip (columns X) (snd r))).

(** [row[key]] on a series labelled by strings: a missing label raises
    [KeyError], a label that occurs once gives its cell, a repeated label
    gives the series of its cells. *)
Definition row_getitem (row : list (string * pyval)) (key : string) : result pyval :=
  match snd <$> filter (fun kv => fst kv = key) row with
  | [] => Raise KeyError
  | [v] => Ok v
  | vs => Ok (PSeries vs)
  end.

(** [X.to_dict(orient='list')]: each column label mapped to the column's
    cells; of two columns with one label the later one stays. *)
Definition df_column (X : DataFrame) (j : nat) : list pyval :=
  (fun r => default (PFloat NaN) (snd r !! j)) <$> rows X.

Definition df_to_dict_list (X : DataFrame) : gmap string (list pyval) :=
  foldl (fun d jc => <[snd jc := df_column X (fst jc)]> d) ∅
        (zip (seq 0 (length (columns X))) (columns X)).

(** ['0' in key] *)
Fixpoint has_zero_char (key : string) : bool :=
  match key with
  | EmptyString => false
  | String c rest => if Ascii.eqb c "0"%char then true else has_zero_char rest
  end.

(** ** Result tables *)

Record Row : Type := {
  start_date : pyval;
  end_date : pyval;
  model : pyval;
  model_result : pyval;
  time : pyfloat;
  method : pyval;
  error : pyfloat
}.

(** A result table: rows with their index labels. *)
Abbreviation ResultTable := (list (pyval * Row)).

(** [df.reset_index(drop=True)] *)
Definition reset_index (df : ResultTable) : ResultTable :=
  imap (fun i r => (PInt (Z.of_nat i), snd r)) df.

(** [pd.concat(frames, ignore_index=True)]: no frame at all is a
    [ValueError]. *)
Definition pd_concat (frames : list ResultTable) : result ResultTable :=
  match frames with
  | [] => Raise ValueError
  | _ => Ok (reset_index (concat frames))
  end.

(** ** Interpreter state and the monad of effects *)

Section Fit.

(** The state of a Python object, everything reachable from it included. *)
Context {Obj : Type}.

Record World : Type := {
  heap : gmap loc Obj;
  clock : Qc
}.

Definition M (A : Type) : Type := World -> result A * World.

Definition ret {A} (a : A) : M A := fun w => (Ok a, w).

Definition bind {A B} (m : M A) (f : A -> M B) : M B :=
  fun w =>
    match m w with
    | (Ok a, w') => f a w'
    | (Raise e, w') => (Raise e, w')
    end.

Notation "'let*' x ':=' m 'in' k" := (bind m (fun x => k))
  (at level 10, x name, m at level 100, k at level 200).

Definition lift {A} (r : result A) : M A := fun w => (r, w).

(** [try: body / except ValueError:] gives [None] when the body raised a
    [ValueError]; any other exception stays raised. *)
Definition try_except_ValueError {A} (body : M A) : M (option A) :=
  fun w =>
    match body w with
    | (Ok a, w') => (Ok (Some a), w')
    | (Raise e, w') => if is_ValueError e then (Ok None, w') else (Raise e, w')
    end.

Fixpoint mapM {A B} (f : A -> M B) (l : list A) : M (list B) :=
  match l with
  | [] => ret []
  | x :: t => let* y := f x in let* ys := mapM f t in ret (y :: ys)
  end.

(** [timeit.default_timer()] *)
Definition timer : M Qc := fun w => (Ok (clock w), w).

(** Reading the object behind a reference. *)
Definition deref (l : loc) : M Obj :=
  fun w =>
    match heap w !! l with
    | Some o => (Ok o, w)
    | None => (Raise (OtherError "dangling reference"), w)
    end.

(** A reference that no object has yet, and the state with an object put
    behind a reference. *)
Definition next_loc (w : World) : loc := fresh (dom (heap w)).

Definition store (l : loc) (o : Obj) (w : World) : World :=
  {| heap := <[l := o]> (heap w); clock := clock w |}.

Definition alloc (o : Obj) : M loc :=
  fun w => (Ok (next_loc w), store (next_loc w) o w).

(** [copy.deepcopy(obj)]: a new object with an equal state that shares
    nothing with the original. *)
Definition deepcopy (l : loc) : M loc :=
  let* o := deref l in alloc o.

(** ** Collaborators *)

(** What the module needs of the model family: [obj.params] (a mapping, read
    in insertion order), [obj.Z] of a prediction result, [obj.fit(...)] and
    [obj.predict(X)].  Reading an attribute may raise. *)
Class Collaborators : Type := {
  attr_params : Obj -> result (list (string * pyval));
  attr_Z : Obj -> result (list pyval);
  call_fit : loc -> gmap string (list pyval) -> list pyval -> string ->
             gmap string pyval -> M loc;
  call_predict : loc -> DataFrame -> M loc;
  (** [joblib.Parallel(n_jobs, verbose)] applied to the delayed calls *)
  call_Parallel : Z -> Z -> list (M ResultTable) -> M (list ResultTable)
}.

Context {C : Collaborators}.

(** An error metric of the [sklearn.metrics] interface. *)
Definition ErrorMetric : Type := list pyval -> list pyval -> M pyfloat.

(** ** get_ic_params *)

Fixpoint ic_loop (X_train : DataFrame) (keys : list string)
    (ic_params : gmap string pyval) : result (gmap string pyval) :=
  match keys with
  | [] => Ok ic_params
  | key :: rest =>
      if has_zero_char key then
        rbind (df_iloc0 X_train) (fun row =>
        rbind (row_getitem row key) (fun v =>
        ic_loop X_train rest (<[key := v]> ic_params)))
      else ic_loop X_train rest ic_params
  end.

(** [obj.params] *)
Definition getattr_params (obj : loc) : M (list (string * pyval)) :=
  let* o := deref obj in lift (attr_params o).

Definition get_ic_params (model : loc) (X_train : DataFrame) : M (gmap string pyval) :=
  let* params := getattr_params model in
  lift (ic_loop X_train (fst <$> params) ∅).

(** ** train_model *)

(** The call [model.fit(X=..., y=..., method=..., ic_params=...)] with its
    arguments evaluated from left to right. *)
Definition fit_call (model : loc) (X_train : DataFrame) (y_train : Series)
    (method : string) : M loc :=
  let* X := ret (df_to_dict_list X_train) in
  let* y := ret (series_values y_train) in
  let* ic_params := get_ic_params model X_train in
  call_fit model X y method ic_params.

Definition single_row (r : Row) : ResultTable := [(PInt 0, r)].

Definition train_model (base_model : loc) (X_train : DataFrame) (y_train : Series)
    (error_metric : ErrorMetric) (method : string) : M ResultTable :=
  let* start := timer in
  let* model := deepcopy base_model in
  let* fitted := try_except_ValueError (fit_call model X_train y_train method) in
  match fitted with
  | None =>
      let* end_ := timer in
      let* first := lift (df_index X_train 0) in
      let* last := lift (df_index X_train (-1)) in
      ret (single_row {| start_date := first;
                         end_date := last;
                         model := PFloat NaN;
                         model_result := PFloat NaN;
                         time := Fin (end_ - start)%Qc;
                         method := PStr method;
                         error := NaN |})
  | Some model =>
      let* model_result := call_predict model X_train in
      let* end_ := timer in
      let* first := lift (df_index X_train 0) in
      let* last := lift (df_index X_train (-1)) in
      let* res := deref model_result in
      let* Z := lift (attr_Z res) in
      let* err := error_metric (series_values y_train) Z in
      ret (single_row {| start_date := first;
                         end_date := last;
                         model := PRef model;
                         model_result := PRef model_result;
                         time := Fin (end_ - start)%Qc;
                         method := PStr method;
                         error := err |})
  end.

(** ** train_models *)

(** [splits or [(None, range(len(X_train)))]]: no splits and an empty list of
    splits both stand for the one split that covers the window.  The splits
    are a list of (label, row positions) pairs; a generator of splits, which
    Python takes for true even when it yields nothing, is not modelled. *)
Definition splits_or_default (splits : option (list (pyval * list Z)))
    (X_train : DataFrame) : list (pyval * list Z) :=
  match splits with
  | Some (s :: rest) => s :: rest
  | _ => [(PNone, seqZ 0 (Z.of_nat (df_len X_train)))]
  end.

(** [for _, idx in ... for model in models]: the pairs in the order in which
    the comprehension visits them. *)
Definition jobs (models : list loc) (splits : list (pyval * list Z)) : list (list Z * loc) :=
  s ← splits; (fun model => (snd s, model)) <$> models.

(** One element of the comprehension of the serial branch. *)
Definition run_job (X_train : DataFrame) (y_train : Series) (error_metric : ErrorMetric)
    (method : string) (job : list Z * loc) : M ResultTable :=
  let* X := lift (df_iloc X_train (fst job)) in
  let* y := lift (series_iloc y_train (fst job)) in
  train_model (snd job) X y error_metric method.

(** One element of the generator of the parallel branch: the arguments are
    sliced when the call is submitted, the call itself is left to the pool. *)
Definition delayed_job (X_train : DataFrame) (y_train : Series) (error_metric : ErrorMetric)
    (method : string) (job : list Z * loc) : result (M ResultTable) :=
  rbind (df_iloc X_train (fst job)) (fun X =>
  rbind (series_iloc y_train (fst job)) (fun y =>
  Ok (train_model (snd job) X y error_metric method))).

Definition train_models (models : list loc) (X_train : DataFrame) (y_train : Series)
    (error_metric : ErrorMetric) (splits : option (list (pyval * list Z)))
    (method : string) (n_jobs verbose : Z) : M ResultTable :=
  let todo := jobs models (splits_or_default splits X_train) in
  if negb (n_jobs =? 1) then
    let* calls := lift (rmapM (delayed_job X_train y_train error_metric method) todo) in
    let* frames := call_Parallel n_jobs verbose calls in
    lift (pd_concat frames)
  else
    let* frames := mapM (run_job X_train y_train error_metric method) todo in
    lift (pd_concat frames).

(** ** What the theorems assume of collaborators *)

(** The clock never runs backwards during a call. *)
Definition clock_monotone {A} (m : M A) : Prop :=
  forall w, (clock w <= clock (snd (m w)))%Qc.

(** A method call changes no object that existed before it, its receiver
    apart. *)
Definition preserves_others {A} (self : loc) (m : M A) : Prop :=
  forall w l, l <> self -> is_Some (heap w !! l) -> heap (snd (m w)) !! l = heap w !! l.

(** A function call changes no object that existed before it. *)
Definition preserves_heap {A} (m : M A) : Prop :=
  forall w l, is_Some (heap w !! l) -> heap (snd (m w)) !! l = heap w !! l.

(** A method returns its receiver or an object made during the call. *)
Definition returns_self_or_new (self : loc) (m : M loc) : Prop :=
  forall w r, fst (m w) = Ok r -> r = self \/ heap w !! r = None.

(** The row [r] is what [train_model] returned, in some state, for the model
    and the rows of the (split, model) pair [job]. *)
Definition is_record_of (X_train : DataFrame) (y_train : Series) (error_metric : ErrorMetric)
    (method : string) (job : list Z * loc) (r : Row) : Prop :=
  exists X y w1 w2,
    df_iloc X_train (fst job) = Ok X /\
    series_iloc y_train (fst job) = Ok y /\
    train_model (snd job) X y error_metric method w1 = (Ok (single_row r), w2).

(** [joblib.Parallel] returns one result per submitted call, in submission
    order, each of them a value that its call returned. *)
Definition pool_in_submission_order : Prop :=
  forall n_jobs verbose calls w frames w',
    call_Parallel n_jobs verbose calls w = (Ok frames, w') ->
    Forall2 (fun call frame => exists w1 w2, call w1 = (Ok frame, w2)) calls frames.

(** Every object of the state [w] is in the state [w'], as it is in [w]. *)
Definition heap_kept (w w' : World) : Prop :=
  forall l, is_Some (heap w !! l) -> heap w' !! l = heap w !! l.

(** Two cells of an object column hold the same: references stand for the
    objects behind them, in the state of their table, and are the same when
    these objects have the same state; anything else is compared as a
    value. *)
Definition cell_agrees (w : World) (v : pyval) (w' : World) (v' : pyval) : Prop :=
  match v, v' with
  | PRef l, PRef l' => is_Some (heap w !! l) /\ heap w !! l = heap w' !! l'
  | PRef _, _ | _, PRef _ => False
  | _, _ => v = v'
  end.

(** Two records hold the same in every field but the elapsed time. *)
Definition rows_agree (w : World) (r : Row) (w' : World) (r' : Row) : Prop :=
  start_date r = start_date r' /\
  end_date r = end_date r' /\
  cell_agrees w (model r) w' (model r') /\
  cell_agrees w (model_result r) w' (model_result r') /\
  method r = method r' /\
  error r = error r'.

(** Two calls end alike: with the same exception, or with objects in the
    same state. *)
Definition same_outcome (run run' : result loc * World) : Prop :=
  match fst run, fst run' with
  | Ok r, Ok r' =>
      is_Some (heap (snd run) !! r) /\ heap (snd run) !! r = heap (snd run') !! r'
  | Raise e, Raise e' => e = e'
  | _, _ => False
  end.

(** What a method call does is determined by the state of its receiver (and
    by the arguments, which [call] has taken): on receivers in the same state
    the calls end alike and leave the receivers in the same state, whatever
    else the two states hold and whatever the clock reads. *)
Definition method_determined (call : loc -> M loc) : Prop :=
  forall self self' w w',
    is_Some (heap w !! self) ->
    heap w !! self = heap w' !! self' ->
    same_outcome (call self w) (call self' w') /\
    is_Some (heap (snd (call self w)) !! self) /\
    heap (snd (call self w)) !! self = heap (snd (call self' w')) !! self'.

Definition fit_determined : Prop :=
  forall X y method ic, method_determined (fun self => call_fit self X y method ic).

Definition predict_determined : Prop :=
  forall X, method_determined (fun self => call_predict self X).

(** The value of the metric is a function of its arguments. *)
Definition metric_determined (error_metric : ErrorMetric) : Prop :=
  forall y_true y_pred w w',
    fst (error_metric y_true y_pred w) = fst (error_metric y_true y_pred w').

(** The table [frame] is what [train_model] returned for the (split, model)
    pair [job] in a run between the states [w] and [w']: the run began in a
    state that had the objects of [w] as they were, and the objects at its
    end are in [w'] as they were then. *)
Definition is_record_between (w w' : World) (X_train : DataFrame) (y_train : Series)
    (error_metric : ErrorMetric) (method : string) (job : list Z * loc)
    (frame : ResultTable) : Prop :=
  exists X y w1 w2,
    df_iloc X_train (fst job) = Ok X /\
    series_iloc y_train (fst job) = Ok y /\
    train_model (snd job) X y error_metric method w1 = (Ok frame, w2) /\
    heap_kept w w1 /\ heap_kept w2 w'.

(** [joblib.Parallel] on calls that change no object that existed before
    them: it returns one result per submitted call, in submission order, each
    of them the value that its call returned in a run between the state at
    submission and the state in which the results are handed over.  The
    order in which the calls run, and the clock, are left open. *)
Definition pool_keeps_objects : Prop :=
  forall n_jobs verbose calls w frames w',
    Forall (fun call => preserves_heap call) calls ->
    call_Parallel n_jobs verbose calls w = (Ok frames, w') ->
    Forall2 (fun call frame =>
               exists w1 w2, call w1 = (Ok frame, w2) /\
                             heap_kept w w1 /\ heap_kept w2 w')
            calls frames.

End Fit.

Arguments World : clear implicits.
Arguments M : clear implicits.
Arguments Collaborators : clear implicits.
Arguments ErrorMetric : clear implicits.

(** ** reduce_results_df *)

Global Instance pyfloat_eq_dec : EqDecision pyfloat.
Proof. solve_decision. Defined.

Definition float_is_inf (f : pyfloat) : bool :=
  match f with Inf _ => true | _ => false end.

Definition float_isna (f : pyfloat) : bool :=
  match f with NaN => true | _ => false end.

(** [pd.isna] on a cell of an object column *)
Definition val_isna (v : pyval) : bool :=
  match v with
  | PNone => true
  | PFloat f => float_isna f
  | _ => false
  end.

Definition float_replace_inf (f : pyfloat) : pyfloat :=
  if float_is_inf f then NaN else f.

Definition val_replace_inf (v : pyval) : pyval :=
  match v with
  | PFloat f => PFloat (float_replace_inf f)
  | _ => v
  end.

Definition row_replace_inf (r : Row) : Row :=
  {| start_date := val_replace_inf (start_date r);
     end_date := val_replace_inf (end_date r);
     model := val_replace_inf (model r);
     model_result := val_replace_inf (model_result r);
     time := float_replace_inf (time r);
     method := val_replace_inf (method r);
     error := float_replace_inf (error r) |}.

Definition row_has_na (r : Row) : bool :=
  val_isna (start_date r) || val_isna (end_date r) || val_isna (model r) ||
  val_isna (model_result r) || float_isna (time r) || val_isna (method r) ||
  float_isna (error r).

Definition val_is_inf (v : pyval) : bool :=
  match v with
  | PFloat f => float_is_inf f
  | _ => false
  end.

(** Some field of the row is plus or minus infinity. *)
Definition row_has_inf (r : Row) : bool :=
  val_is_inf (start_date r) || val_is_inf (end_date r) || val_is_inf (model r) ||
  val_is_inf (model_result r) || float_is_inf (time r) || val_is_inf (method r) ||
  float_is_inf (error r).

(** [df.replace([-np.inf, np.inf], np.nan)] *)
Definition replace_inf (df : ResultTable) : ResultTable :=
  (fun ir => (fst ir, row_replace_inf (snd ir))) <$> df.

(** [df.dropna()] *)
Definition dropna (df : ResultTable) : ResultTable :=
  filter (fun ir => row_has_na (snd ir) = false) df.

(** Rounding to the nearest integer, halves to the even neighbour. *)
Definition rint (q : Q) : Z :=
  let f := Qfloor q in
  match Qcompare (q - inject_Z f)%Q (1 # 2) with
  | Lt => f
  | Gt => f + 1
  | Eq => if Z.even f then f else f + 1
  end.

(** Binary64 arithmetic.  A finite float is the rational it stands for; an
    operation computes the exact result and rounds it to the nearest binary64
    value, ties to the even mantissa, and a result beyond the largest finite
    value is an infinity.  Zero carries no sign. *)

(** For [0 < a] the [k] with [2^k <= a < 2^(k+1)]. *)
Definition Qfloor_log2 (a : Q) : Z :=
  let k := Z.log2 (Qnum a) - Z.log2 (Zpos (Qden a)) in
  if Qle_bool (Qpower 2 k) a then k else k - 1.

Definition Qneg (q : Q) : bool := Qnum q <? 0.

Definition binary64 (q : Q) : pyfloat :=
  if Qeq_bool q 0 then Fin (Q2Qc 0)
  else
    let a := Qabs q in
    let e := Z.max (Qfloor_log2 a - 52) (-1074) in
    let v := (inject_Z (rint (a / Qpower 2 e)) * Qpower 2 e)%Q in
    if Qle_bool (Qpower 2 1024) v then Inf (Qneg q)
    else Fin (Q2Qc (if Qneg q then (- v)%Q else v)).

Definition float_mul (a b : pyfloat) : pyfloat :=
  match a, b with
  | NaN, _ | _, NaN => NaN
  | Inf s, Inf t => Inf (xorb s t)
  | Inf s, Fin q | Fin q, Inf s => if Qeq_bool q 0 then NaN else Inf (xorb s (Qneg q))
  | Fin p, Fin q => binary64 (p * q)%Q
  end.

Definition float_div (a b : pyfloat) : pyfloat :=
  match a, b with
  | NaN, _ | _, NaN => NaN
  | Inf _, Inf _ => NaN
  | Inf s, Fin q => Inf (xorb s (Qneg q))
  | Fin _, Inf _ => Fin (Q2Qc 0)
  | Fin p, Fin q =>
      if Qeq_bool q 0 then (if Qeq_bool p 0 then NaN else Inf (Qneg p))
      else binary64 (p / q)%Q
  end.

(** [np.rint]: NaN and the infinities pass. *)
Definition float_rint (a : pyfloat) : pyfloat :=
  match a with
  | Fin q => Fin (Q2Qc (inject_Z (rint q)))
  | _ => a
  end.

(** numpy's factor [10.0 ** n]: exact up to [1e22], beyond that the product
    of the factor before and ten, rounded. *)
Fixpoint power_of_ten (n : nat) : pyfloat :=
  match n with
  | O => Fin (Q2Qc 1)
  | S n' => float_mul (power_of_ten n') (Fin (Q2Qc 10))
  end.

(** [np.round(x, decimals)] on a float64: [rint] alone for no decimals,
    otherwise scale by the factor, [rint], scale back (multiply and divide
    for positive, divide and multiply for negative [decimals]).  A finite
    value whose scaling overflows comes out infinite. *)
Definition np_round (decimals : Z) (x : pyfloat) : pyfloat :=
  if decimals =? 0 then float_rint x
  else if 0 <? decimals then
    let f := power_of_ten (Z.to_nat decimals) in
    float_div (float_rint (float_mul x f)) f
  else
    let f := power_of_ten (Z.to_nat (- decimals)) in
    float_mul (float_rint (float_div x f)) f.

Definition float_round (decimals : Z) (f : pyfloat) : pyfloat :=
  np_round decimals f.

Definition row_round_error (decimals : Z) (r : Row) : Row :=
  {| start_date := start_date r;
     end_date := end_date r;
     model := model r;
     model_result := model_result r;
     time := time r;
     method := method r;
     error := float_round decimals (error r) |}.

(** [df.round({'error': decimals})] *)
Definition round_error (decimals : Z) (df : ResultTable) : ResultTable :=
  (fun ir => (fst ir, row_round_error decimals (snd ir))) <$> df.

(** The order of [sort_values] on a float column: ascending, NaN last. *)
Definition float_leb (a b : pyfloat) : bool :=
  match a, b with
  | _, NaN => true
  | NaN, _ => false
  | Inf true, _ => true
  | _, Inf true => false
  | _, Inf false => true
  | Inf false, _ => false
  | Fin p, Fin q => bool_decide (p ≤ q)%Qc
  end.

Definition float_le (a b : pyfloat) : Prop := float_leb a b = true.

Definition time_le (r1 r2 : pyval * Row) : Prop :=
  float_le (time (snd r1)) (time (snd r2)).

Definition error_le (r1 r2 : pyval * Row) : Prop :=
  float_le (error (snd r1)) (error (snd r2)).

Global Instance time_le_dec : RelDecision time_le.
Proof. intros r1 r2. unfold time_le, float_le. apply _. Defined.

Global Instance error_le_dec : RelDecision error_le.
Proof. intros r1 r2. unfold error_le, float_le. apply _. Defined.

(** [df.sort_values('time')] and [df.sort_values('error')].  pandas sorts with
    quicksort, which may order rows of equal key either way; the merge sort
    used here is one such order. *)
Definition sort_values_time (df : ResultTable) : ResultTable :=
  merge_sort time_le df.

Definition sort_values_error (df : ResultTable) : ResultTable :=
  merge_sort error_le df.

(** [df.drop_duplicates(subset=['error'], keep='first')]: a row stays when no
    row before it has its error value. *)
Fixpoint drop_duplicates_from (seen : list pyfloat) (df : ResultTable) : ResultTable :=
  match df with
  | [] => []
  | r :: rest =>
      if bool_decide (error (snd r) ∈ seen)
      then drop_duplicates_from seen rest
      else r :: drop_duplicates_from (error (snd r) :: seen) rest
  end.

Definition drop_duplicates_error (df : ResultTable) : ResultTable :=
  drop_duplicates_from [] df.

Definition reduce_results_df (df : ResultTable) (decimals : Z) : ResultTable :=
  reset_index
    (sort_values_error
       (drop_duplicates_error
          (sort_values_time
             (round_error decimals
                (dropna
                   (replace_inf df)))))).

(** ** A small model family

    A concrete instance of the collaborators, used to run the module on
    explicit inputs. *)

Module Demo.

Inductive obj : Type :=
  | Model (params : list (string * pyval))
  | BrokenModel
  | Prediction (Z : list pyval).

(** [params] of a broken model is a property that raises [ValueError]. *)
Definition params_of (o : obj) : result (list (string * pyval)) :=
  match o with
  | Model ps => Ok ps
  | BrokenModel => Raise ValueError
  | Prediction _ => Raise AttributeError
  end.

Definition Z_of (o : obj) : result (list pyval) :=
  match o with
  | Prediction z => Ok z
  | _ => Raise AttributeError
  end.

Definition advance (d : Qc) (w : World obj) : World obj :=
  {| heap := heap w; clock := (clock w + d)%Qc |}.

(** The fitted parameters: the initial conditions take their value from the
    window, the others are set to zero. *)
Definition fitted_params (ic : gmap string pyval) (ps : list (string * pyval)) :
    list (string * pyval) :=
  (fun kv => (fst kv, default (PFloat (Fin (Qc_of_Z 0))) (ic !! fst kv))) <$> ps.

(** [fit] updates the receiver in place and returns it; the first fit after
    start-up takes two seconds, later ones take one; every method but
    "nelder" fails to converge. *)
Definition fit (self : loc) (X : gmap string (list pyval)) (y : list pyval)
    (method : string) (ic : gmap string pyval) : M obj loc :=
  fun w =>
    let w' := advance (Qc_of_Z (if bool_decide (clock w = Qc_of_Z 0) then 2 else 1)) w in
    if bool_decide (method = "nelder"%string) then
      match heap w !! self with
      | Some (Model ps) =>
          (Ok self, {| heap := <[self := Model (fitted_params ic ps)]> (heap w');
                       clock := clock w' |})
      | _ => (Raise AttributeError, w')
      end
    else (Raise ValueError, w').

(** [predict] returns a new prediction object that repeats the first
    column. *)
Definition predict (self : loc) (X : DataFrame) : M obj loc :=
  fun w => alloc (Prediction (df_column X 0)) (advance (Qc_of_Z 1) w).

(** A pool with one worker that takes the submitted calls from the back of
    the queue and hands the results over in submission order. *)
Definition pool (n_jobs verbose : Z) (calls : list (M obj ResultTable)) :
    M obj (list ResultTable) :=
  bind (mapM (fun call => call) (reverse calls)) (fun frames => ret (reverse frames)).

Global Instance collaborators : Collaborators obj := {|
  attr_params := params_of;
  attr_Z := Z_of;
  call_fit := fit;
  call_predict := predict;
  call_Parallel := pool
|}.

(** An error metric: the number of targets. *)
Definition error_metric : ErrorMetric obj :=
  fun y_true y_pred => ret (Fin (Qc_of_Z (Z.of_nat (length y_true)))).

Definition X_train : DataFrame :=
  {| columns := ["A0"; "Ph"]%string;
     rows := [(PInt 0, [PFloat (Fin (Q2Qc (25 # 2))); PFloat (Fin (Qc_of_Z 1))]);
              (PInt 1, [PFloat (Fin (Q2Qc (27 # 2))); PFloat (Fin (Qc_of_Z 2))]);
              (PInt 2, [PFloat (Fin (Q2Qc (29 # 2))); PFloat (Fin (Qc_of_Z 3))])] |}.

Definition y_train : Series :=
  [(PInt 0, PFloat (Fin (Qc_of_Z 20))); (PInt 1, PFloat (Fin (Qc_of_Z 21))); (PInt 2, PFloat (Fin (Qc_of_Z 22)))].

Definition params : list (string * pyval) := [("A0", PNone); ("B", PNone)]%string.

(** Two models at references 1 and 2, a broken one at 3, the clock at zero. *)
Definition world : World obj :=
  {| heap := <[1%positive := Model params]>
             (<[2%positive := Model params]>
              (<[3%positive := BrokenModel]> ∅));
     clock := Qc_of_Z 0 |}.

(** A record of a successful fit with the given elapsed time and error. *)
Definition record (elapsed err : pyfloat) : Row :=
  {| start_date := PInt 0;
     end_date := PInt 2;
     model := PRef 4%positive;
     model_result := PRef 5%positive;
     time := elapsed;
     method := PStr "nelder";
     error := err |}.

End Demo.

(** * Properties *)

(** ** Python indexing *)

Lemma py_index_0_head {A} (l : list A) (x : A) :
  py_index l 0 = Ok x <-> head l = Some x.
Proof.
  unfold py_index. destruct l as [|a t]; simpl.
  - split; discriminate.
  - replace (0 <? Z.pos (Pos.of_succ_nat (length t))) with true
      by (symmetry; apply Z.ltb_lt; lia).
    simpl. split; congruence.
Qed.

Lemma py_index_m1_last {A} (l : list A) (x : A) :
  py_index l (-1) = Ok x <-> last l = Some x.
Proof.
  unfold py_index. rewrite last_lookup.
  destruct l as [|a t].
  - simpl. split; discriminate.
  - cbn [Z.ltb Z.compare].
    replace (Z.of_nat (length (a :: t)) + -1) with (Z.of_nat (length t))
      by (simpl length; lia).
    replace (0 <=? Z.of_nat (length t)) with true by (symmetry; apply Z.leb_le; lia).
    replace (Z.of_nat (length t) <? Z.of_nat (length (a :: t))) with true
      by (symmetry; apply Z.ltb_lt; simpl length; lia).
    rewrite Nat2Z.id. simpl andb. cbv iota. simpl length. simpl Nat.pred.
    destruct ((a :: t) !! length t) eqn:E.
    + split; congruence.
    + apply lookup_ge_None in E. simpl in E. lia.
Qed.

Lemma py_index_range {A} (l : list A) (i : nat) (x : A) :
  l !! i = Some x -> py_index l (Z.of_nat i) = Ok x.
Proof.
  intros H. unfold py_index.
  pose proof (lookup_lt_Some _ _ _ H) as Hlt.
  replace (Z.of_nat i <? 0) with false by (symmetry; apply Z.ltb_ge; lia).
  replace (0 <=? Z.of_nat i) with true by (symmetry; apply Z.leb_le; lia).
  replace (Z.of_nat i <? Z.of_nat (length l)) with true by (symmetry; apply Z.ltb_lt; lia).
  simpl. rewrite Nat2Z.id, H. reflexivity.
Qed.

(** ** The first row of a window *)

Lemma filter_label_absent (cols : list string) (vals : list pyval) (key : string) :
  key ∉ cols -> filter (fun kv : string * pyval => fst kv = key) (zip cols vals) = [].
Proof.
  revert vals. induction cols as [|k cs IH]; intros vals Hnot; [reflexivity|].
  destruct vals as [|x xs]; [reflexivity|]. simpl.
  apply not_elem_of_cons in Hnot as [Hne Hnot].
  rewrite filter_cons_False by (simpl; congruence).
  by apply IH.
Qed.

Lemma row_getitem_unique (cols : list string) (vals : list pyval) key j v :
  NoDup cols -> cols !! j = Some key -> vals !! j = Some v ->
  row_getitem (zip cols vals) key = Ok v.
Proof.
  intros Hnd Hc Hv.
  assert (snd <$> filter (fun kv : string * pyval => fst kv = key) (zip cols vals) = [v])
    as Hf; [|unfold row_getitem; by rewrite Hf].
  revert vals j Hnd Hc Hv. induction cols as [|k cs IH]; intros vals j Hnd Hc Hv.
  - by rewrite lookup_nil in Hc.
  - destruct vals as [|x xs]; [by rewrite lookup_nil in Hv|].
    apply NoDup_cons in Hnd as [Hk Hnd]. simpl.
    destruct j as [|j]; simpl in Hc, Hv.
    + injection Hc as ->. injection Hv as ->.
      rewrite filter_cons_True by reflexivity.
      by rewrite filter_label_absent.
    + assert (k <> key) as Hne.
      { intros ->. apply Hk. by eapply list_elem_of_lookup_2. }
      rewrite filter_cons_False by (simpl; congruence).
      by eapply IH.
Qed.

Lemma df_iloc0_first (X : DataFrame) lbl row0 rest :
  rows X = (lbl, row0) :: rest -> df_iloc0 X = Ok (zip (columns X) row0).
Proof.
  intros HX. unfold df_iloc0.
  assert (py_index (rows X) 0 = Ok (lbl, row0)) as ->; [|reflexivity].
  apply py_index_0_head. by rewrite HX.
Qed.

Lemma ic_loop_spec (X : DataFrame) lbl row0 rest (keys : list string)
    (acc : gmap string pyval) :
  rows X = (lbl, row0) :: rest ->
  NoDup (columns X) ->
  length row0 = length (columns X) ->
  (forall key, key ∈ keys -> has_zero_char key = true -> key ∈ columns X) ->
  exists ic, ic_loop X keys acc = Ok ic /\
    forall key,
      (key ∈ keys /\ has_zero_char key = true ->
         exists j v, columns X !! j = Some key /\ row0 !! j = Some v /\ ic !! key = Some v) /\
      (~ (key ∈ keys /\ has_zero_char key = true) -> ic !! key = acc !! key).
Proof.
  intros HX Hnd Hlen. revert acc.
  induction keys as [|k ks IH]; intros acc Hcols.
  - exists acc. split; [reflexivity|]. intros key. split; [|done].
    intros [Hin _]. by apply elem_of_nil in Hin.
  - simpl. destruct (has_zero_char k) eqn:Hz.
    + rewrite (df_iloc0_first X lbl row0 rest HX). simpl.
      assert (k ∈ columns X) as Hk by (apply Hcols; [left|done]).
      apply list_elem_of_lookup in Hk as [j Hj].
      destruct (lookup_lt_is_Some_2 row0 j) as [v Hv].
      { rewrite Hlen. by eapply lookup_lt_Some. }
      rewrite (row_getitem_unique _ _ k j v Hnd Hj Hv). simpl.
      destruct (IH (<[k := v]> acc)) as (ic & Hic & Hspec).
      { intros key Hin. apply Hcols. by right. }
      exists ic. split; [done|]. intros key.
      destruct (Hspec key) as [Hyes Hno].
      destruct (decide (key ∈ ks /\ has_zero_char key = true)) as [Hd|Hd].
      * split; [intros _; by apply Hyes|]. intros Hneg. destruct Hneg.
        destruct Hd. split; [by right|done].
      * split.
        -- intros [Hin Hz']. apply elem_of_cons in Hin as [->|Hin]; [|tauto].
           exists j, v. rewrite (Hno Hd), lookup_insert_eq. done.
        -- intros Hneg. rewrite (Hno Hd). apply lookup_insert_ne.
           intros <-. apply Hneg. split; [left|done].
    + destruct (IH acc) as (ic & Hic & Hspec).
      { intros key Hin. apply Hcols. by right. }
      exists ic. split; [done|]. intros key.
      destruct (Hspec key) as [Hyes Hno]. split.
      * intros [Hin Hz']. apply Hyes. split; [|done].
        apply elem_of_cons in Hin as [->|Hin]; [congruence|done].
      * intros Hneg. apply Hno. intros [Hin Hz']. apply Hneg. split; [by right|done].
Qed.

Section FitProperties.

Context {Obj : Type} {C : Collaborators Obj}.

(** C7. For a model whose [params] can be read and a non-empty window with
    unique column labels that has a column for every parameter name
    containing the character '0', [get_ic_params] returns a mapping whose
    keys are exactly those parameter names, each mapped to the cell of the
    first row in the column of that name; when no parameter name contains '0'
    the mapping is empty.  The state is left as it was. *)
Theorem get_ic_params_spec (model : loc) (X_train : DataFrame) (w : World Obj)
    (o : Obj) (params : list (string * pyval)) lbl row0 rest :
  heap w !! model = Some o ->
  attr_params o = Ok params ->
  rows X_train = (lbl, row0) :: rest ->
  NoDup (columns X_train) ->
  length row0 = length (columns X_train) ->
  (forall key, key ∈ params.*1 -> has_zero_char key = true -> key ∈ columns X_train) ->
  exists ic : gmap string pyval,
    get_ic_params model X_train w = (Ok ic, w) /\
    (forall key, is_Some (ic !! key) <-> key ∈ params.*1 /\ has_zero_char key = true) /\
    (forall key v, ic !! key = Some v ->
       exists j, columns X_train !! j = Some key /\ row0 !! j = Some v) /\
    ((forall key, key ∈ params.*1 -> has_zero_char key = false) -> ic = ∅).
Proof.
  intros Hw Hp HX Hnd Hlen Hcols.
  destruct (ic_loop_spec X_train lbl row0 rest (params.*1) ∅ HX Hnd Hlen Hcols)
    as (ic & Hic & Hspec).
  exists ic. split; [|split; [|split]].
  - unfold get_ic_params, getattr_params, bind, deref, lift. by rewrite Hw, Hp, Hic.
  - intros key. destruct (Hspec key) as [Hyes Hno]. split.
    + intros Hsome.
      destruct (decide (key ∈ params.*1 /\ has_zero_char key = true)) as [Hd|Hd]; [done|].
      rewrite (Hno Hd), lookup_empty in Hsome. by destruct Hsome.
    + intros Hd. destruct (Hyes Hd) as (j & v & _ & _ & Hv). by exists v.
  - intros key v Hv. destruct (Hspec key) as [Hyes Hno].
    destruct (decide (key ∈ params.*1 /\ has_zero_char key = true)) as [Hd|Hd].
    + destruct (Hyes Hd) as (j & v' & Hj & Hr & Hv'). exists j. split; [done|congruence].
    + by rewrite (Hno Hd), lookup_empty in Hv.
  - intros Hnone. apply map_eq. intros key. rewrite lookup_empty.
    destruct (Hspec key) as [_ Hno]. rewrite Hno; [apply lookup_empty|].
    intros [Hin Hz]. rewrite (Hnone key Hin) in Hz. discriminate.
Qed.

(** ** train_model *)

Lemma df_index_bounds (X : DataFrame) :
  rows X <> [] ->
  exists first last_,
    df_index X 0 = Ok first /\ df_index X (-1) = Ok last_ /\
    head (rows X).*1 = Some first /\ last (rows X).*1 = Some last_.
Proof.
  intros Hne. unfold df_index.
  destruct (head (rows X).*1) as [first|] eqn:Hh.
  2:{ apply head_None in Hh. apply fmap_nil_inv in Hh. done. }
  destruct (last (rows X).*1) as [last_|] eqn:Hl.
  2:{ apply last_None in Hl. apply fmap_nil_inv in Hl. done. }
  exists first, last_. repeat split.
  - by apply py_index_0_head.
  - by apply py_index_m1_last.
Qed.

(** Whatever [train_model] returns is a table of one row, labelled 0, that
    carries the bounds of the window's index and the method. *)
Lemma train_model_Ok_inv (base_model : loc) (X_train : DataFrame) (y_train : Series)
    (error_metric : ErrorMetric Obj) (method_ : string) (w w' : World Obj) df :
  train_model base_model X_train y_train error_metric method_ w = (Ok df, w') ->
  exists r,
    df = [(PInt 0, r)] /\
    head (rows X_train).*1 = Some (start_date r) /\
    last (rows X_train).*1 = Some (end_date r) /\
    method r = PStr method_.
Proof.
  unfold train_model, bind, timer, deepcopy, deref, alloc, try_except_ValueError,
    lift, ret, single_row.
  intros H. repeat case_match; simplify_eq; eexists; (split; [reflexivity|]); simpl;
    repeat split;
    first [by apply py_index_0_head | by apply py_index_m1_last].
Qed.

Ltac unfold_train_model :=
  unfold train_model, deepcopy;
  unfold bind, timer, deref, alloc, try_except_ValueError, lift, ret, single_row;
  cbv beta.

(** C1. For every base model and every non-empty window, [train_model]
    returns a table of exactly one row whose [start_date] is the first and
    whose [end_date] is the last value of the window's index: when the fit
    raises the tolerated [ValueError], when fit, predict and the metric all
    return, and in any other run in which a table is returned. *)
Theorem train_model_dates (base_model : loc) (X_train : DataFrame) (y_train : Series)
    (error_metric : ErrorMetric Obj) (method_ : string) (w : World Obj) (o : Obj) :
  rows X_train <> [] ->
  heap w !! base_model = Some o ->
  let copy := next_loc w in
  let w1 := store copy o w in
  let bounds (r : Row) :=
    head (rows X_train).*1 = Some (start_date r) /\
    last (rows X_train).*1 = Some (end_date r) in
  (forall w2,
     fit_call copy X_train y_train method_ w1 = (Raise ValueError, w2) ->
     exists r,
       train_model base_model X_train y_train error_metric method_ w
         = (Ok [(PInt 0, r)], w2) /\ bounds r) /\
  (forall fitted w2 pred w3 res Z err w4,
     fit_call copy X_train y_train method_ w1 = (Ok fitted, w2) ->
     call_predict fitted X_train w2 = (Ok pred, w3) ->
     heap w3 !! pred = Some res ->
     attr_Z res = Ok Z ->
     error_metric (series_values y_train) Z w3 = (Ok err, w4) ->
     exists r,
       train_model base_model X_train y_train error_metric method_ w
         = (Ok [(PInt 0, r)], w4) /\ bounds r) /\
  (forall df w',
     train_model base_model X_train y_train error_metric method_ w = (Ok df, w') ->
     exists r, df = [(PInt 0, r)] /\ bounds r).
Proof.
  intros Hne Hw copy w1 bounds.
  destruct (df_index_bounds X_train Hne) as (first & last_ & H0 & H1 & Hh & Hl).
  split; [|split].
  - intros w2 Hfit. eexists. split.
    + unfold_train_model. rewrite Hw. fold copy w1. rewrite Hfit. simpl.
      rewrite H0, H1. reflexivity.
    + split; simpl; done.
  - intros fitted w2 pred w3 res Z err w4 Hfit Hpred Hres HZ Herr. eexists. split.
    + unfold_train_model. rewrite Hw. fold copy w1. rewrite Hfit. simpl.
      rewrite Hpred, H0, H1, Hres, HZ, Herr. reflexivity.
    + split; simpl; done.
  - intros df w' Hrun.
    destruct (train_model_Ok_inv _ _ _ _ _ _ _ _ Hrun) as (r & -> & Hs & He & _).
    by exists r.
Qed.

(** C2. On a non-empty window, when the initial conditions are extracted and
    the model's fit raises [ValueError], [train_model] returns one row whose
    model, prediction and error are NaN, with the index bounds, the method
    name and, as elapsed time, the clock reading after the failed fit less
    the reading at the start, which is not negative (the clock does not run
    backwards during the fit); when the fit raises any other exception,
    [train_model] raises that exception.  (On a window without rows the
    handler raises [IndexError].) *)
Theorem train_model_tolerated_failure (base_model : loc) (X_train : DataFrame)
    (y_train : Series) (error_metric : ErrorMetric Obj) (method_ : string)
    (w : World Obj) (o : Obj) (ic : gmap string pyval) (e : exn) (w2 : World Obj) :
  rows X_train <> [] ->
  heap w !! base_model = Some o ->
  (forall self X y me ic, clock_monotone (call_fit self X y me ic)) ->
  let copy := next_loc w in
  let w1 := store copy o w in
  get_ic_params copy X_train w1 = (Ok ic, w1) ->
  call_fit copy (df_to_dict_list X_train) (series_values y_train) method_ ic w1
    = (Raise e, w2) ->
  (e = ValueError ->
   exists first last_,
     train_model base_model X_train y_train error_metric method_ w
       = (Ok [(PInt 0, {| start_date := first;
                          end_date := last_;
                          model := PFloat NaN;
                          model_result := PFloat NaN;
                          time := Fin (clock w2 - clock w)%Qc;
                          method := PStr method_;
                          error := NaN |})], w2) /\
     head (rows X_train).*1 = Some first /\
     last (rows X_train).*1 = Some last_ /\
     (0 <= clock w2 - clock w)%Qc) /\
  (e <> ValueError ->
   train_model base_model X_train y_train error_metric method_ w = (Raise e, w2)).
Proof.
  intros Hne Hw Hmono copy w1 Hic Hfit.
  destruct (df_index_bounds X_train Hne) as (first & last_ & H0 & H1 & Hh & Hl).
  assert (fit_call copy X_train y_train method_ w1 = (Raise e, w2)) as Hcall.
  { unfold fit_call, bind, ret. rewrite Hic. exact Hfit. }
  split.
  - intros ->. exists first, last_. split; [|split; [|split]]; try done.
    + unfold_train_model. rewrite Hw. fold copy w1. rewrite Hcall. simpl.
      rewrite H0, H1. reflexivity.
    + pose proof (Hmono copy (df_to_dict_list X_train) (series_values y_train)
                    method_ ic w1) as Hc.
      rewrite Hfit in Hc. simpl in Hc.
      apply Qcle_minus_iff in Hc. exact Hc.
  - intros Hother. unfold_train_model. rewrite Hw. fold copy w1. rewrite Hcall.
    destruct e; simpl; done.
Qed.

(** C9. The [try] block covers the whole call expression: on a non-empty
    window, a [ValueError] raised by [get_ic_params], and more generally by
    any part of evaluating the fit call, is caught, and [train_model] returns
    the row of a failed fit instead of raising.  (On a window without rows
    the error is caught as well, and the handler raises [IndexError].) *)
Theorem train_model_catches_ic_error (base_model : loc) (X_train : DataFrame)
    (y_train : Series) (error_metric : ErrorMetric Obj) (method_ : string)
    (w : World Obj) (o : Obj) (w2 : World Obj) :
  rows X_train <> [] ->
  heap w !! base_model = Some o ->
  let copy := next_loc w in
  let w1 := store copy o w in
  get_ic_params copy X_train w1 = (Raise ValueError, w2) \/
  fit_call copy X_train y_train method_ w1 = (Raise ValueError, w2) ->
  exists r,
    train_model base_model X_train y_train error_metric method_ w
      = (Ok [(PInt 0, r)], w2) /\
    model r = PFloat NaN /\ model_result r = PFloat NaN /\ error r = NaN.
Proof.
  intros Hne Hw copy w1 Hraise.
  destruct (df_index_bounds X_train Hne) as (first & last_ & H0 & H1 & Hh & Hl).
  assert (fit_call copy X_train y_train method_ w1 = (Raise ValueError, w2)) as Hcall.
  { destruct Hraise as [Hic|Hcall]; [|done].
    unfold fit_call, bind, ret. by rewrite Hic. }
  eexists. split.
  - unfold_train_model. rewrite Hw. fold copy w1. rewrite Hcall. simpl.
    rewrite H0, H1. reflexivity.
  - done.
Qed.


(** ** Isolation of the base model *)

Lemma next_loc_fresh (w : World Obj) : heap w !! next_loc w = None.
Proof. unfold next_loc. apply not_elem_of_dom. apply is_fresh. Qed.

Lemma store_lookup_ne (w : World Obj) (l l' : loc) (o : Obj) :
  l' <> l -> heap (store l o w) !! l' = heap w !! l'.
Proof. intros Hne. unfold store. simpl. by apply lookup_insert_ne. Qed.

Lemma get_ic_params_state (model_ : loc) (X_train : DataFrame) (w : World Obj) :
  snd (get_ic_params model_ X_train w) = w.
Proof.
  unfold get_ic_params, getattr_params, bind, deref, lift.
  repeat case_match; simplify_eq; reflexivity.
Qed.

Lemma fit_call_frame (self : loc) (X_train : DataFrame) (y_train : Series)
    (method_ : string) (w : World Obj) r w' (l : loc) :
  (forall self X y me ic, preserves_others self (call_fit self X y me ic)) ->
  (forall self X y me ic, returns_self_or_new self (call_fit self X y me ic)) ->
  fit_call self X_train y_train method_ w = (r, w') ->
  l <> self -> is_Some (heap w !! l) ->
  heap w' !! l = heap w !! l /\
  (forall fitted, r = Ok fitted -> fitted <> l).
Proof.
  intros Hframe Hret Hcall Hne Hl.
  unfold fit_call, bind, ret in Hcall.
  pose proof (get_ic_params_state self X_train w) as Hst.
  destruct (get_ic_params self X_train w) as [[ic|e] w0]; simpl in Hst; subst w0.
  - pose proof (Hframe self (df_to_dict_list X_train) (series_values y_train)
                  method_ ic w l Hne Hl) as Hf.
    pose proof (Hret self (df_to_dict_list X_train) (series_values y_train)
                  method_ ic w) as Hr.
    rewrite Hcall in Hf, Hr. simpl in Hf, Hr. split; [done|].
    intros fitted ->. destruct (Hr fitted eq_refl) as [->|Hnew]; [done|].
    intros ->. rewrite Hnew in Hl. by destruct Hl.
  - simplify_eq. split; [done|]. intros ? [=].
Qed.

Ltac unfold_train_model_in H :=
  unfold train_model, deepcopy in H;
  unfold bind, timer, deref, alloc, try_except_ValueError, lift, ret, single_row in H;
  cbv beta in H.

Ltac finish_raise :=
  simplify_eq; split; [congruence|split; [|done]];
  match goal with Hread : forall _, _ -> _ |- _ => apply Hread; congruence end.

(** C8. [train_model] works on a deep copy: provided the collaborators change
    no object other than the receiver of the call (and return the receiver or
    a new object), the base model is the same object after [train_model] as
    before, whether a table is returned or an exception raised, so
    [base_model.params] reads the same; the fitted model of the returned row
    is another object than the base model, and putting any state behind it
    leaves [base_model.params] as it was. *)
Theorem train_model_base_isolated (base_model : loc) (X_train : DataFrame)
    (y_train : Series) (error_metric : ErrorMetric Obj) (method_ : string)
    (w : World Obj) (o : Obj) (res : result ResultTable) (w' : World Obj) :
  heap w !! base_model = Some o ->
  (forall self X y me ic, preserves_others self (call_fit self X y me ic)) ->
  (forall self X y me ic, returns_self_or_new self (call_fit self X y me ic)) ->
  (forall self X, preserves_others self (call_predict self X)) ->
  (forall y_true y_pred, preserves_heap (error_metric y_true y_pred)) ->
  train_model base_model X_train y_train error_metric method_ w = (res, w') ->
  heap w' !! base_model = heap w !! base_model /\
  fst (getattr_params base_model w') = fst (getattr_params base_model w) /\
  (forall df i r fitted,
     res = Ok df -> (i, r) ∈ df -> model r = PRef fitted ->
     fitted <> base_model /\
     forall o', fst (getattr_params base_model (store fitted o' w'))
                = fst (getattr_params base_model w)).
Proof.
  intros Hw Hfit Hret Hpred Hmetric Hrun.
  assert (forall w0 : World Obj, heap w0 !! base_model = heap w !! base_model ->
            fst (getattr_params base_model w0) = fst (getattr_params base_model w))
    as Hread.
  { intros w0 Hw0. unfold getattr_params, bind, deref, lift. rewrite Hw0, Hw.
    reflexivity. }
  assert (next_loc w <> base_model) as Hcopy.
  { intros Heq. pose proof (next_loc_fresh w) as Hf. rewrite Heq in Hf. congruence. }
  assert (heap (store (next_loc w) o w) !! base_model = Some o) as Hw1.
  { rewrite store_lookup_ne by done. exact Hw. }
  unfold_train_model_in Hrun. rewrite Hw in Hrun.
  destruct (fit_call (next_loc w) X_train y_train method_ (store (next_loc w) o w))
    as [fr w2] eqn:Hcall.
  destruct (fit_call_frame _ _ _ _ _ _ _ base_model Hfit Hret Hcall)
    as [Hw2 Hfitted]; [done|by rewrite Hw1|].
  rewrite Hw1 in Hw2.
  destruct fr as [fitted|e].
  - specialize (Hfitted fitted eq_refl).
    pose proof (Hpred fitted X_train w2 base_model) as Hp.
    destruct (call_predict fitted X_train w2) as [pr w3] eqn:Hpr. simpl in Hp.
    rewrite Hw2 in Hp. specialize (Hp ltac:(done) ltac:(done)).
    destruct pr as [pred|e]; [|finish_raise].
    destruct (df_index X_train 0) as [first|e];
      [|finish_raise].
    destruct (df_index X_train (-1)) as [last_|e];
      [|finish_raise].
    destruct (heap w3 !! pred) as [resobj|];
      [|finish_raise].
    destruct (attr_Z resobj) as [Z|e];
      [|finish_raise].
    pose proof (Hmetric (series_values y_train) Z w3 base_model) as Hm.
    destruct (error_metric (series_values y_train) Z w3) as [er w4] eqn:Her.
    simpl in Hm. rewrite Hp in Hm. specialize (Hm ltac:(done)).
    destruct er as [err|e];
      [|finish_raise].
    simplify_eq. rewrite Hw. split; [done|]. split; [apply Hread; congruence|].
    intros df i r fitted' [= <-] Hin Hmodel.
    apply list_elem_of_singleton in Hin. simplify_eq. simpl in Hmodel. simplify_eq.
    split; [done|]. intros o'. apply Hread.
    rewrite store_lookup_ne by done. congruence.
  - destruct (is_ValueError e).
    + destruct (df_index X_train 0) as [first|e0];
        [|finish_raise].
      destruct (df_index X_train (-1)) as [last_|e0];
        [|finish_raise].
      simplify_eq. rewrite Hw. split; [done|]. split; [apply Hread; congruence|].
      intros df i r fitted' [= <-] Hin Hmodel.
      apply list_elem_of_singleton in Hin. simplify_eq.
    + finish_raise.
Qed.


(** ** train_models *)

Lemma rmapM_Ok_Forall2 {A B} (f : A -> result B) (l : list A) (ys : list B) :
  rmapM f l = Ok ys -> Forall2 (fun x y => f x = Ok y) l ys.
Proof.
  revert ys. induction l as [|x t IH]; intros ys H; simpl in H.
  - injection H as <-. constructor.
  - unfold rbind in H. destruct (f x) as [y|] eqn:Hx; [|discriminate].
    destruct (rmapM f t) as [ys'|]; [|discriminate].
    injection H as <-. constructor; [done|by apply IH].
Qed.

Lemma mapM_Ok_Forall2 {A B} (f : A -> M Obj B) (l : list A) (w w' : World Obj)
    (ys : list B) :
  mapM f l w = (Ok ys, w') ->
  Forall2 (fun x y => exists w1 w2, f x w1 = (Ok y, w2)) l ys.
Proof.
  revert w ys. induction l as [|x t IH]; intros w ys H; simpl in H.
  - unfold ret in H. injection H as <- _. constructor.
  - unfold bind, ret in H.
    destruct (f x w) as [[y|] w1] eqn:Hx; [|discriminate].
    destruct (mapM f t w1) as [[ys'|] w2] eqn:Ht; [|discriminate].
    injection H as <- <-. constructor; [by exists w, w1|by eapply IH].
Qed.

Lemma jobs_cons (models : list loc) (s : pyval * list Z) (ss : list (pyval * list Z)) :
  jobs models (s :: ss) = ((fun model_ => (snd s, model_)) <$> models) ++ jobs models ss.
Proof. reflexivity. Qed.

Lemma jobs_length (models : list loc) (ss : list (pyval * list Z)) :
  length (jobs models ss) = (length ss * length models)%nat.
Proof.
  induction ss as [|s ss IH]; [reflexivity|].
  rewrite jobs_cons, length_app, length_fmap, IH. simpl. lia.
Qed.

(** Split-major order: the pair of split [i] and model [j] is at position
    [i * m + j]. *)
Lemma jobs_lookup (models : list loc) (ss : list (pyval * list Z)) (i j : nat) s model_ :
  ss !! i = Some s -> models !! j = Some model_ ->
  jobs models ss !! (i * length models + j)%nat = Some (snd s, model_).
Proof.
  revert i. induction ss as [|s0 ss IH]; intros i Hs Hm; [by rewrite lookup_nil in Hs|].
  rewrite jobs_cons. destruct i as [|i]; simpl in Hs.
  - injection Hs as ->. simpl. rewrite lookup_app_l.
    + by rewrite list_lookup_fmap, Hm.
    + rewrite length_fmap. by eapply lookup_lt_Some.
  - rewrite lookup_app_r; rewrite length_fmap; [|simpl; lia].
    replace (S i * length models + j - length models)%nat
      with (i * length models + j)%nat by (simpl; lia).
    by apply IH.
Qed.

Lemma reset_index_single_rows (rs : list Row) :
  reset_index (concat (single_row <$> rs)) = imap (fun i r => (PInt (Z.of_nat i), r)) rs.
Proof.
  unfold reset_index.
  assert (concat (single_row <$> rs) = (fun r => (PInt 0, r)) <$> rs) as ->.
  { induction rs as [|r rs IH]; [reflexivity|].
    rewrite !fmap_cons. cbn [concat]. rewrite IH. reflexivity. }
  by rewrite imap_fmap.
Qed.

(** A returned table lists, in the order of the comprehension, one record per
    (split, model) pair. *)
Lemma train_models_rows (models : list loc) (X_train : DataFrame) (y_train : Series)
    (error_metric : ErrorMetric Obj) splits (method_ : string) (n_jobs verbose : Z)
    (w w' : World Obj) (df : ResultTable) :
  (n_jobs <> 1 -> pool_in_submission_order) ->
  train_models models X_train y_train error_metric splits method_ n_jobs verbose w
    = (Ok df, w') ->
  exists rs,
    rs <> [] /\
    df = imap (fun i r => (PInt (Z.of_nat i), r)) rs /\
    Forall2 (is_record_of X_train y_train error_metric method_)
            (jobs models (splits_or_default splits X_train)) rs.
Proof.
  intros Hpool Hrun. unfold train_models in Hrun.
  set (todo := jobs models (splits_or_default splits X_train)) in *.
  assert (exists frames, frames <> [] /\ df = reset_index (concat frames) /\
            Forall2 (fun job frame => exists X y w1 w2,
                       df_iloc X_train (fst job) = Ok X /\
                       series_iloc y_train (fst job) = Ok y /\
                       train_model (snd job) X y error_metric method_ w1 = (Ok frame, w2))
                    todo frames) as (frames & Hne & -> & Hall).
  { destruct (negb (n_jobs =? 1)) eqn:Hn.
    - apply negb_true_iff, Z.eqb_neq in Hn. specialize (Hpool Hn).
      unfold bind, lift in Hrun.
      destruct (rmapM (delayed_job X_train y_train error_metric method_) todo)
        as [calls|] eqn:Hcalls; [|discriminate].
      destruct (call_Parallel n_jobs verbose calls w) as [[frames|] w1] eqn:Hp;
        [|discriminate].
      destruct frames as [|f fs]; [discriminate|]. simpl in Hrun.
      injection Hrun as <- _. exists (f :: fs). split; [done|]. split; [done|].
      apply rmapM_Ok_Forall2 in Hcalls. apply Hpool in Hp.
      revert Hcalls Hp. generalize (f :: fs). generalize calls.
      induction todo as [|job todo' IH]; intros cs fr Hc Hf.
      + inversion Hc; subst. inversion Hf; subst. constructor.
      + inversion Hc as [|? call ? cs' Hjob Hrest]; subst.
        inversion Hf as [|? frame ? fr' (w1' & w2' & Hcall) Hrest']; subst.
        constructor; [|by eapply IH].
        unfold delayed_job, rbind in Hjob.
        destruct (df_iloc X_train (fst job)) as [X|]; [|discriminate].
        destruct (series_iloc y_train (fst job)) as [y|]; [|discriminate].
        injection Hjob as <-. by exists X, y, w1', w2'.
    - unfold bind, lift in Hrun.
      destruct (mapM (run_job X_train y_train error_metric method_) todo w)
        as [[frames|] w1] eqn:Hm; [|discriminate].
      destruct frames as [|f fs]; [discriminate|]. simpl in Hrun.
      injection Hrun as <- _. exists (f :: fs). split; [done|]. split; [done|].
      apply mapM_Ok_Forall2 in Hm.
      eapply Forall2_impl; [exact Hm|].
      intros job frame (w1' & w2' & Hjob). unfold run_job, bind, lift in Hjob.
      destruct (df_iloc X_train (fst job)) as [X|]; [|discriminate].
      destruct (series_iloc y_train (fst job)) as [y|]; [|discriminate].
      by exists X, y, w1', w2'. }
  assert (exists rs, frames = single_row <$> rs /\
            Forall2 (is_record_of X_train y_train error_metric method_) todo rs)
    as (rs & -> & Hrs).
  { clear Hne Hrun. induction Hall as [|job frame todo' frames' Hjob _ IH].
    - exists []. split; [reflexivity|constructor].
    - destruct IH as (rs & -> & Hrs).
      destruct Hjob as (X & y & w1 & w2 & HX & Hy & Hcall).
      destruct (train_model_Ok_inv _ _ _ _ _ _ _ _ Hcall) as (r & -> & _).
      exists (r :: rs). split; [reflexivity|]. constructor; [|done].
      by exists X, y, w1, w2. }
  exists rs. split; [|split; [|done]].
  - intros ->. by apply Hne.
  - apply reset_index_single_rows.
Qed.

Lemma rmapM_py_index_range {A} (l : list A) (n k : nat) :
  (k + n <= length l)%nat ->
  rmapM (py_index l) (seqZ (Z.of_nat k) (Z.of_nat n)) = Ok (take n (drop k l)).
Proof.
  revert k. induction n as [|n IH]; intros k Hle.
  - reflexivity.
  - rewrite seqZ_cons by lia.
    replace (Z.succ (Z.of_nat k)) with (Z.of_nat (S k)) by lia.
    replace (Z.pred (Z.of_nat (S n))) with (Z.of_nat n) by lia.
    destruct (lookup_lt_is_Some_2 l k) as [x Hx]; [lia|].
    simpl. rewrite (py_index_range l k x Hx). simpl.
    rewrite IH by lia. simpl.
    rewrite (drop_S l x k Hx). reflexivity.
Qed.

(** [X.iloc[range(len(X))]] is the whole window. *)
Lemma df_iloc_whole (X : DataFrame) :
  df_iloc X (seqZ 0 (Z.of_nat (df_len X))) = Ok X.
Proof.
  unfold df_iloc, df_len.
  pose proof (rmapM_py_index_range (rows X) (length (rows X)) 0 ltac:(lia)) as H.
  change (Z.of_nat 0) with 0 in H. rewrite H.
  simpl. rewrite drop_0, firstn_all. by destruct X.
Qed.

Lemma imap_index_labels (rs : list Row) :
  (imap (fun i r => (PInt (Z.of_nat i), r)) rs).*1
  = (fun i => PInt (Z.of_nat i)) <$> seq 0 (length rs).
Proof.
  rewrite fmap_imap. rewrite <- (imap_seq_0 rs (fun i => PInt (Z.of_nat i))).
  reflexivity.
Qed.

(** C3 (amended). Whenever [train_models] returns a table, in the serial
    branch or, with a pool that returns its results in submission order, in
    the parallel branch ([n_jobs] other than 1), there is at least one model
    and the table has
    exactly [k * m] rows for the [m] models and the [k] effective splits:
    the given splits when there is at least one, the single split of the whole
    window when [splits] is [None] or empty.  The rows are in split-major
    order, the record of split [i] and model [j] being at position
    [i * m + j], and the index counts up from zero.  With [splits = None] the
    table has one row per model, each a record of a fit on the whole
    window. *)
Theorem train_models_split_major (models : list loc) (X_train : DataFrame)
    (y_train : Series) (error_metric : ErrorMetric Obj)
    (splits : option (list (pyval * list Z))) (method_ : string) (n_jobs verbose : Z)
    (w w' : World Obj) (df : ResultTable) :
  (n_jobs <> 1 -> pool_in_submission_order) ->
  train_models models X_train y_train error_metric splits method_ n_jobs verbose w
    = (Ok df, w') ->
  let ss := splits_or_default splits X_train in
  let m := length models in
  (forall ss0, splits = Some ss0 -> ss0 <> [] -> ss = ss0) /\
  (splits = None \/ splits = Some [] ->
     ss = [(PNone, seqZ 0 (Z.of_nat (df_len X_train)))]) /\
  m <> 0%nat /\
  length df = (length ss * m)%nat /\
  df.*1 = (fun i => PInt (Z.of_nat i)) <$> seq 0 (length df) /\
  (forall i j s model_,
     ss !! i = Some s -> models !! j = Some model_ ->
     exists r,
       df !! (i * m + j)%nat = Some (PInt (Z.of_nat (i * m + j)), r) /\
       is_record_of X_train y_train error_metric method_ (snd s, model_) r) /\
  (splits = None ->
     length df = m /\
     forall j model_,
       models !! j = Some model_ ->
       exists r y w1 w2,
         df !! j = Some (PInt (Z.of_nat j), r) /\
         train_model model_ X_train y error_metric method_ w1 = (Ok (single_row r), w2)).
Proof.
  intros Hpool Hrun ss m.
  destruct (train_models_rows _ _ _ _ _ _ _ _ _ _ _ Hpool Hrun) as (rs & Hne & -> & Hrs).
  fold ss in Hrs.
  pose proof (Forall2_length _ _ _ Hrs) as Hlen. rewrite jobs_length in Hlen. fold m in Hlen.
  assert (forall i j s model_,
     ss !! i = Some s -> models !! j = Some model_ ->
     exists r,
       imap (fun i r => (PInt (Z.of_nat i), r)) rs !! (i * m + j)%nat
         = Some (PInt (Z.of_nat (i * m + j)), r) /\
       is_record_of X_train y_train error_metric method_ (snd s, model_) r) as Hpos.
  { intros i j s model_ Hs Hm.
    pose proof (jobs_lookup models ss i j s model_ Hs Hm) as Hjob. fold m in Hjob.
    destruct (Forall2_lookup_l _ _ _ _ _ Hrs Hjob) as (r & Hr & Hrec).
    exists r. split; [|done]. by rewrite list_lookup_imap, Hr. }
  split; [|split; [|split; [|split; [|split; [|split]]]]].
  - intros ss0 -> Hne0. subst ss. by destruct ss0.
  - intros [->| ->]; reflexivity.
  - intros Hm. apply Hne. apply length_zero_iff_nil. lia.
  - rewrite length_imap. lia.
  - rewrite length_imap. apply imap_index_labels.
  - exact Hpos.
  - intros ->. subst ss. simpl in *. split; [rewrite length_imap; lia|].
    intros j model_ Hm.
    destruct (Hpos 0%nat j _ model_ eq_refl Hm) as (r & Hr & X & y & w1 & w2 & HX & Hy & Hcall).
    simpl in HX. rewrite df_iloc_whole in HX. injection HX as <-.
    exists r, y, w1, w2. simpl in Hr, Hcall. by split.
Qed.

End FitProperties.

(** ** reduce_results_df *)

Global Instance float_le_total : Total float_le.
Proof.
  intros a b. unfold float_le.
  destruct a as [|[]|p], b as [|[]|q]; simpl; auto.
  rewrite !bool_decide_eq_true. apply (total Qcle).
Qed.

Global Instance float_le_trans : Transitive float_le.
Proof.
  intros a b c. unfold float_le.
  destruct a as [|[]|p], b as [|[]|q], c as [|[]|r]; simpl; auto; try discriminate.
  rewrite !bool_decide_eq_true. apply Qcle_trans.
Qed.

Global Instance time_le_total : Total time_le.
Proof. intros r1 r2. apply float_le_total. Qed.

Global Instance time_le_trans : Transitive time_le.
Proof. intros r1 r2 r3. apply float_le_trans. Qed.

Global Instance error_le_total : Total error_le.
Proof. intros r1 r2. apply float_le_total. Qed.

Global Instance error_le_trans : Transitive error_le.
Proof. intros r1 r2 r3. apply float_le_trans. Qed.

(** A row passes [replace] and [dropna] exactly when it has no missing and no
    infinite field, and then [replace] did not change it. *)
Lemma val_clean (v : pyval) :
  val_isna (val_replace_inf v) = false <-> val_isna v = false /\ val_is_inf v = false.
Proof. destruct v as [|[|?|?]| | | |]; simpl; intuition congruence. Qed.

Lemma float_clean (f : pyfloat) :
  float_isna (float_replace_inf f) = false <-> float_isna f = false /\ float_is_inf f = false.
Proof. destruct f; simpl; intuition congruence. Qed.

Lemma val_replace_inf_id (v : pyval) : val_is_inf v = false -> val_replace_inf v = v.
Proof. destruct v as [|f| | | |]; try destruct f; cbn; intros; congruence. Qed.

Lemma float_replace_inf_id (f : pyfloat) : float_is_inf f = false -> float_replace_inf f = f.
Proof. destruct f; cbn; intros; congruence. Qed.

Lemma row_clean (r : Row) :
  row_has_na (row_replace_inf r) = false <->
  row_has_na r = false /\ row_has_inf r = false.
Proof.
  unfold row_has_na, row_has_inf. simpl.
  rewrite !orb_false_iff, !val_clean, !float_clean. tauto.
Qed.

Lemma row_replace_inf_id (r : Row) : row_has_inf r = false -> row_replace_inf r = r.
Proof.
  unfold row_has_inf. rewrite !orb_false_iff.
  intros [[[[[[H1 H2] H3] H4] H5] H6] H7]. destruct r. unfold row_replace_inf. simpl in *.
  by rewrite !val_replace_inf_id, !float_replace_inf_id.
Qed.

Lemma row_clean_error (r : Row) :
  row_has_na r = false -> row_has_inf r = false -> exists q, error r = Fin q.
Proof.
  unfold row_has_na, row_has_inf. rewrite !orb_false_iff.
  intros [_ Hna] [_ Hinf]. destruct (error r); simpl in *; try discriminate. by eexists.
Qed.

(** The rows that reach the sort: the rounded clean rows of the table. *)
Lemma elem_of_cleaned (df : ResultTable) (decimals : Z) (i : pyval) (r' : Row) :
  (i, r') ∈ round_error decimals (dropna (replace_inf df)) <->
  exists r, (i, r) ∈ df /\ row_has_na r = false /\ row_has_inf r = false /\
            r' = row_round_error decimals r.
Proof.
  unfold round_error, dropna, replace_inf. rewrite list_elem_of_fmap. split.
  - intros ([i0 r0] & Heq & Hin). simpl in Heq. injection Heq as -> ->.
    apply list_elem_of_filter in Hin as [Hna Hin]. simpl in Hna.
    apply list_elem_of_fmap in Hin as ([i1 r1] & Heq & Hin). simpl in Heq.
    injection Heq as -> ->. apply row_clean in Hna as [Hna Hinf].
    exists r1. by rewrite (row_replace_inf_id r1 Hinf).
  - intros (r & Hin & Hna & Hinf & ->). exists (i, r). split; [reflexivity|].
    apply list_elem_of_filter. split.
    + exact Hna.
    + apply list_elem_of_fmap. exists (i, r). split; [|done]. simpl.
      by rewrite (row_replace_inf_id r Hinf).
Qed.

(** The cleaning pays no regard to the rows that it removes: the cleaned
    table is that of the table without any number of them. *)
Lemma cleaned_without (gone : pyval * Row -> bool) (df : ResultTable) :
  (forall x, x ∈ df -> gone x = true -> row_has_na (row_replace_inf (snd x)) = true) ->
  dropna (replace_inf (filter (fun x => gone x = false) df)) = dropna (replace_inf df).
Proof.
  unfold dropna, replace_inf.
  induction df as [|x df IH]; intros Hgone; [reflexivity|].
  assert (forall y, y ∈ df -> gone y = true ->
            row_has_na (row_replace_inf (snd y)) = true) as Hrest
    by (intros y Hy; apply Hgone; by right).
  destruct (gone x) eqn:Hx.
  - rewrite filter_cons_False by congruence. rewrite fmap_cons.
    rewrite filter_cons_False; [by apply IH|].
    simpl. rewrite (Hgone x); [discriminate|left|exact Hx].
  - rewrite filter_cons_True by exact Hx. rewrite !fmap_cons.
    destruct (row_has_na (row_replace_inf (snd x))) eqn:Hna.
    + rewrite !filter_cons_False by (simpl; congruence). by apply IH.
    + rewrite !filter_cons_True by (simpl; congruence). f_equal. by apply IH.
Qed.

Lemma reduce_results_df_without (gone : pyval * Row -> bool) (df : ResultTable)
    (decimals : Z) :
  (forall x, x ∈ df -> gone x = true -> row_has_na (row_replace_inf (snd x)) = true) ->
  reduce_results_df (filter (fun x => gone x = false) df) decimals
  = reduce_results_df df decimals.
Proof. intros Hgone. unfold reduce_results_df. by rewrite cleaned_without. Qed.

(** Rows kept by [drop_duplicates]. *)
Lemma drop_duplicates_from_elem (seen : list pyfloat) (df : ResultTable) x :
  x ∈ drop_duplicates_from seen df -> x ∈ df /\ error (snd x) ∉ seen.
Proof.
  revert seen. induction df as [|r rest IH]; intros seen Hin; simpl in Hin.
  - by apply elem_of_nil in Hin.
  - case_bool_decide as Hseen.
    + destruct (IH _ Hin). split; [by right|done].
    + apply elem_of_cons in Hin as [->|Hin]; [split; [left|done]|].
      destruct (IH _ Hin) as [? Hnot]. split; [by right|].
      intros ?. apply Hnot. by right.
Qed.

Lemma drop_duplicates_from_NoDup (seen : list pyfloat) (df : ResultTable) :
  NoDup ((fun x => error (snd x)) <$> drop_duplicates_from seen df).
Proof.
  revert seen. induction df as [|r rest IH]; intros seen; simpl.
  - constructor.
  - case_bool_decide as Hseen; [apply IH|].
    rewrite fmap_cons. apply NoDup_cons. split; [|apply IH].
    intros Hin. apply list_elem_of_fmap in Hin as (x & Heq & Hin).
    apply drop_duplicates_from_elem in Hin as [_ Hnot].
    apply Hnot. rewrite <- Heq. left.
Qed.

(** Of the rows with one error value, [drop_duplicates] keeps the first. *)
Lemma drop_duplicates_from_first (seen : list pyfloat) (l1 l2 : ResultTable) x :
  error (snd x) ∉ seen ->
  exists y, y ∈ drop_duplicates_from seen (l1 ++ x :: l2) /\
            error (snd y) = error (snd x) /\ (y = x \/ y ∈ l1).
Proof.
  revert seen. induction l1 as [|a l1 IH]; intros seen Hnot; simpl.
  - rewrite bool_decide_eq_false_2 by done. exists x. split; [left|]. by split; [|left].
  - case_bool_decide as Hseen.
    + destruct (IH seen Hnot) as (y & Hy & He & Hor). exists y.
      split; [done|]. split; [done|]. destruct Hor; [by left|right; by right].
    + destruct (decide (error (snd a) = error (snd x))) as [Heq|Hne].
      * exists a. split; [left|]. split; [done|]. right. left.
      * destruct (IH (error (snd a) :: seen)) as (y & Hy & He & Hor).
        { intros Hin. apply elem_of_cons in Hin as [?|?]; congruence. }
        exists y. split; [by right|]. split; [done|].
        destruct Hor; [by left|right; by right].
Qed.

Lemma reset_index_elem (df : ResultTable) o :
  o ∈ reset_index df <-> exists n x, df !! n = Some x /\ o = (PInt (Z.of_nat n), snd x).
Proof.
  unfold reset_index. rewrite elem_of_lookup_imap. split.
  - intros (n & x & -> & Hx). by exists n, x.
  - intros (n & x & Hx & ->). by exists n, x.
Qed.



Lemma StronglySorted_lookup {A} (R : relation A) (l : list A) (i j : nat) x y :
  StronglySorted R l -> l !! i = Some x -> l !! j = Some y -> (i < j)%nat -> R x y.
Proof.
  intros Hs Hi Hj Hlt. rewrite <- (take_drop j l) in Hs.
  eapply StronglySorted_app_1_elem_of; [exact Hs| |].
  - apply list_elem_of_lookup. exists i. by rewrite lookup_take_lt.
  - apply list_elem_of_lookup. exists 0%nat. by rewrite lookup_drop, Nat.add_0_r.
Qed.

(** Every row of the reduced table is the rounded version of a row of the
    table given that has no missing and no infinite field. *)
Lemma reduce_results_df_source (df : ResultTable) (decimals : Z) o :
  o ∈ reduce_results_df df decimals ->
  exists i r, (i, r) ∈ df /\ row_has_na r = false /\ row_has_inf r = false /\
              snd o = row_round_error decimals r.
Proof.
  unfold reduce_results_df. intros Ho.
  apply reset_index_elem in Ho as (n & [i r'] & Hx & ->).
  apply list_elem_of_lookup_2 in Hx.
  unfold sort_values_error in Hx. rewrite merge_sort_Permutation in Hx.
  apply drop_duplicates_from_elem in Hx as [Hx _].
  unfold sort_values_time in Hx. rewrite merge_sort_Permutation in Hx.
  apply elem_of_cleaned in Hx as (r & Hin & Hna & Hinf & ->).
  by exists i, r.
Qed.

(** The fields that the rounding leaves alone are, in the reduced table,
    neither missing nor infinite. *)
Lemma reduce_results_df_other_fields (df : ResultTable) (decimals : Z) o :
  o ∈ reduce_results_df df decimals ->
  val_isna (start_date (snd o)) || val_isna (end_date (snd o)) ||
  val_isna (model (snd o)) || val_isna (model_result (snd o)) ||
  float_isna (time (snd o)) || val_isna (method (snd o)) = false /\
  val_is_inf (start_date (snd o)) || val_is_inf (end_date (snd o)) ||
  val_is_inf (model (snd o)) || val_is_inf (model_result (snd o)) ||
  float_is_inf (time (snd o)) || val_is_inf (method (snd o)) = false.
Proof.
  intros Ho.
  destruct (reduce_results_df_source df decimals o Ho) as (i & r & _ & Hna & Hinf & ->).
  unfold row_has_na in Hna. unfold row_has_inf in Hinf.
  apply orb_false_iff in Hna as [Hna _]. apply orb_false_iff in Hinf as [Hinf _].
  by split.
Qed.

(** C6. [reduce_results_df] replaces infinite values by the missing marker
    and then drops the rows with a missing field.  Every row of the result is
    the rounded version of a row of the table given that has a finite error
    and no missing field; the records with an infinite error, the records
    with a missing field and the records of failed fits (model, prediction
    and error all NaN) count for nothing, the result being the one of the
    table without any number of them; and no row of the result is the record
    of a failed fit, rounded or not. *)
Theorem reduce_drops_missing (df : ResultTable) (decimals : Z) :
  (forall o, o ∈ reduce_results_df df decimals ->
     exists i r q, (i, r) ∈ df /\ snd o = row_round_error decimals r /\
                   error r = Fin q /\ row_has_na r = false) /\
  (forall gone : pyval * Row -> bool,
     (forall i r,
        (i, r) ∈ df -> gone (i, r) = true ->
        float_is_inf (error r) = true \/ row_has_na r = true \/
        (model r = PFloat NaN /\ model_result r = PFloat NaN /\ error r = NaN)) ->
     reduce_results_df df decimals
     = reduce_results_df (filter (fun x => gone x = false) df) decimals) /\
  (forall i r,
     (i, r) ∈ df ->
     model r = PFloat NaN /\ model_result r = PFloat NaN /\ error r = NaN ->
     forall o, o ∈ reduce_results_df df decimals ->
       snd o <> r /\ snd o <> row_round_error decimals r).
Proof.
  split; [|split].
  - intros o Ho.
    destruct (reduce_results_df_source df decimals o Ho) as (i & r & Hin & Hna & Hinf & Heq).
    destruct (row_clean_error r Hna Hinf) as [q Hq]. by exists i, r, q.
  - intros gone Hgone. symmetry. apply reduce_results_df_without.
    intros [i r] Hin Hg. simpl.
    destruct (row_has_na (row_replace_inf r)) eqn:Hclean; [reflexivity|].
    apply row_clean in Hclean as [Hna Hinf].
    destruct (Hgone i r Hin Hg) as [Hbad|[Hbad|(Hm & _ & _)]].
    + unfold row_has_inf in Hinf. rewrite !orb_false_iff in Hinf.
      destruct Hinf as [_ Hinf]. congruence.
    + congruence.
    + unfold row_has_na in Hna. rewrite Hm in Hna. simpl in Hna.
      rewrite !orb_true_r in Hna. discriminate.
  - intros i r _ (Hm & _ & _) o Ho.
    destruct (reduce_results_df_other_fields df decimals o Ho) as [Hna _].
    rewrite !orb_false_iff in Hna. destruct Hna as [[[[_ Hna] _] _] _].
    split; intros Heq; rewrite Heq in Hna; simpl in Hna; rewrite Hm in Hna; discriminate.
Qed.

(** C10. The replacement of infinite values applies to every column: the
    records with plus or minus infinity in any field (an infinite elapsed time
    beside a finite error, say) count for nothing, the result being the one
    of the table without any number of them; every row of the result is the
    rounded version of a row of the table given without an infinite field;
    and no row of the result is a record with an infinity in a field other
    than the error, rounded or not (in the error, the rounding of a finite
    value can come out infinite). *)
Theorem reduce_drops_infinite (df : ResultTable) (decimals : Z) :
  (forall gone : pyval * Row -> bool,
     (forall i r, (i, r) ∈ df -> gone (i, r) = true -> row_has_inf r = true) ->
     reduce_results_df df decimals
     = reduce_results_df (filter (fun x => gone x = false) df) decimals) /\
  (forall o, o ∈ reduce_results_df df decimals ->
     exists i r, (i, r) ∈ df /\ snd o = row_round_error decimals r /\
                 row_has_inf r = false) /\
  (forall i r,
     (i, r) ∈ df ->
     val_is_inf (start_date r) || val_is_inf (end_date r) || val_is_inf (model r) ||
     val_is_inf (model_result r) || float_is_inf (time r) || val_is_inf (method r)
     = true ->
     forall o, o ∈ reduce_results_df df decimals ->
       snd o <> r /\ snd o <> row_round_error decimals r).
Proof.
  split; [|split].
  - intros gone Hgone. symmetry. apply reduce_results_df_without.
    intros [i r] Hin Hg. simpl.
    destruct (row_has_na (row_replace_inf r)) eqn:Hclean; [reflexivity|].
    apply row_clean in Hclean as [_ Hinf].
    rewrite (Hgone i r Hin Hg) in Hinf. discriminate.
  - intros o Ho.
    destruct (reduce_results_df_source df decimals o Ho) as (i & r & Hin & Hna & Hinf & Heq).
    by exists i, r.
  - intros i r _ Hbad o Ho.
    destruct (reduce_results_df_other_fields df decimals o Ho) as [_ Hinf].
    split; intros Heq; rewrite Heq in Hinf; simpl in Hinf; congruence.
Qed.


(** ** The small model family meets the assumptions *)

Lemma demo_pool_in_submission_order :
  pool_in_submission_order (C := Demo.collaborators).
Proof.
  intros n_jobs verbose calls w frames w' Hrun. simpl in Hrun.
  unfold Demo.pool, bind, ret in Hrun.
  destruct (mapM (fun call => call) (reverse calls) w) as [[fs|] w1] eqn:Hm; [|discriminate].
  injection Hrun as <- <-.
  apply mapM_Ok_Forall2 in Hm. apply Forall2_reverse in Hm.
  rewrite reverse_involutive in Hm. exact Hm.
Qed.

Lemma demo_advance_clock (d : Qc) (w : World Demo.obj) :
  (0 <= d)%Qc -> (clock w <= clock w + d)%Qc.
Proof.
  intros Hd. rewrite <- (Qcplus_0_r (clock w)) at 1.
  apply Qcplus_le_compat; [apply Qcle_refl|exact Hd].
Qed.

Lemma demo_fit_clock_monotone self X y me ic :
  clock_monotone (@call_fit _ Demo.collaborators self X y me ic).
Proof.
  intros w. simpl. unfold Demo.fit.
  assert (0 <= Qc_of_Z (if bool_decide (clock w = Qc_of_Z 0) then 2 else 1))%Qc as Hd
    by (case_bool_decide; done).
  repeat case_match; simpl; by apply demo_advance_clock.
Qed.

Lemma demo_fit_preserves_others self X y me ic :
  preserves_others self (@call_fit _ Demo.collaborators self X y me ic).
Proof.
  intros w l Hne Hl. simpl. unfold Demo.fit.
  repeat case_match; simpl; try reflexivity.
  all: rewrite lookup_insert_ne by congruence; reflexivity.
Qed.

Lemma demo_fit_returns_self self X y me ic :
  returns_self_or_new self (@call_fit _ Demo.collaborators self X y me ic).
Proof.
  intros w r. simpl. unfold Demo.fit.
  repeat case_match; simpl; intros [=]; by left.
Qed.

Lemma demo_predict_preserves_others self X :
  preserves_others self (@call_predict _ Demo.collaborators self X).
Proof.
  intros w l Hne Hl. simpl. unfold Demo.predict, alloc, store. simpl.
  apply lookup_insert_ne. intros Heq. rewrite <- Heq in Hl.
  pose proof (next_loc_fresh (Demo.advance (Qc_of_Z 1) w)) as Hf. simpl in Hf.
  unfold next_loc in *. simpl in *. rewrite Hf in Hl. by destruct Hl.
Qed.

Lemma demo_error_metric_preserves_heap y_true y_pred :
  preserves_heap (Demo.error_metric y_true y_pred).
Proof. intros w l Hl. reflexivity. Qed.

(** ** The module run on the small model family *)

(** The example of the specification: parameters A0 and B, the first row
    with A0 = 12.5. *)
Example get_ic_params_example :
  get_ic_params 1%positive Demo.X_train Demo.world
  = (Ok {["A0"%string := PFloat (Fin (Q2Qc (25 # 2)))]}, Demo.world).
Proof. vm_compute. reflexivity. Qed.

Lemma get_ic_params_witness :
  exists ic : gmap string pyval,
    get_ic_params 1%positive Demo.X_train Demo.world = (Ok ic, Demo.world) /\
    (forall key, is_Some (ic !! key) <-> key ∈ Demo.params.*1 /\ has_zero_char key = true) /\
    (forall key v, ic !! key = Some v ->
       exists j, columns Demo.X_train !! j = Some key /\
                 [PFloat (Fin (Q2Qc (25 # 2))); PFloat (Fin (Qc_of_Z 1))] !! j = Some v) /\
    ((forall key, key ∈ Demo.params.*1 -> has_zero_char key = false) -> ic = ∅).
Proof.
  apply (get_ic_params_spec 1%positive Demo.X_train Demo.world
           (Demo.Model Demo.params) Demo.params (PInt 0)
           [PFloat (Fin (Q2Qc (25 # 2))); PFloat (Fin (Qc_of_Z 1))]
           [(PInt 1, [PFloat (Fin (Q2Qc (27 # 2))); PFloat (Fin (Qc_of_Z 2))]);
            (PInt 2, [PFloat (Fin (Q2Qc (29 # 2))); PFloat (Fin (Qc_of_Z 3))])]).
  - reflexivity.
  - reflexivity.
  - reflexivity.
  - refine (bool_decide_unpack _ _). vm_compute. exact I.
  - reflexivity.
  - intros key Hin Hz. simpl in Hin.
    apply elem_of_cons in Hin as [->|Hin]; [left|].
    apply elem_of_cons in Hin as [->|Hin]; [discriminate|].
    by apply elem_of_nil in Hin.
Defined.

Lemma train_model_dates_witness :
  exists r w',
    train_model 1%positive Demo.X_train Demo.y_train Demo.error_metric "nelder" Demo.world
      = (Ok [(PInt 0, r)], w') /\
    head (rows Demo.X_train).*1 = Some (start_date r) /\
    last (rows Demo.X_train).*1 = Some (end_date r).
Proof.
  destruct (train_model_dates 1%positive Demo.X_train Demo.y_train Demo.error_metric
              "nelder" Demo.world (Demo.Model Demo.params)) as (_ & _ & Hany).
  - discriminate.
  - reflexivity.
  - edestruct Hany as (r & Hdf & Hbounds); [vm_compute; reflexivity|].
    exists r. eexists. split; [|exact Hbounds].
    rewrite <- Hdf. vm_compute. reflexivity.
Defined.

(** A fit with a method that does not converge: the fit takes the two
    seconds of a first fit, and these are the elapsed time of the record. *)
Lemma train_model_tolerated_failure_witness :
  exists first last_ w2,
    train_model 1%positive Demo.X_train Demo.y_train Demo.error_metric "powell" Demo.world
      = (Ok [(PInt 0, {| start_date := first;
                         end_date := last_;
                         model := PFloat NaN;
                         model_result := PFloat NaN;
                         time := Fin (clock w2 - clock Demo.world)%Qc;
                         method := PStr "powell";
                         error := NaN |})], w2) /\
    (clock w2 - clock Demo.world = Qc_of_Z 2)%Qc /\
    head (rows Demo.X_train).*1 = Some first /\
    last (rows Demo.X_train).*1 = Some last_ /\
    (0 <= clock w2 - clock Demo.world)%Qc.
Proof.
  edestruct (train_model_tolerated_failure 1%positive Demo.X_train Demo.y_train
               Demo.error_metric "powell" Demo.world (Demo.Model Demo.params))
    as [Hcaught _].
  - discriminate.
  - reflexivity.
  - exact demo_fit_clock_monotone.
  - vm_compute. reflexivity.
  - vm_compute. reflexivity.
  - destruct (Hcaught eq_refl) as (first & last_ & Hrun & Hh & Hl & Ht).
    exists first, last_. eexists. split; [exact Hrun|].
    split; [apply Qc_is_canon; reflexivity|]. by repeat split.
Defined.

(** The same fit on a window without rows: the [ValueError] of the fit is
    caught, and no record is returned, for the handler raises [IndexError]
    when it reads the first index value. *)
Lemma train_model_tolerated_failure_counterexample :
  let X_train := {| columns := ["A0"; "Ph"]%string; rows := [] |} in
  let w := {| heap := {[1%positive := Demo.Model [("B"%string, PNone)]]};
              clock := Qc_of_Z 0 |} in
  let copy := next_loc w in
  let w1 := store copy (Demo.Model [("B"%string, PNone)]) w in
  exists w2,
    get_ic_params copy X_train w1 = (Ok ∅, w1) /\
    call_fit copy (df_to_dict_list X_train) (series_values []) "powell" ∅ w1
      = (Raise ValueError, w2) /\
    train_model 1%positive X_train [] Demo.error_metric "powell" w
      = (Raise IndexError, w2) /\
    forall df w', train_model 1%positive X_train [] Demo.error_metric "powell" w
                  <> (Ok df, w').
Proof.
  intros X_train w copy w1. eexists.
  split; [vm_compute; reflexivity|].
  split; [vm_compute; reflexivity|].
  assert (train_model 1%positive X_train [] Demo.error_metric "powell" w
          = (Raise IndexError,
             Demo.advance (Qc_of_Z 2) w1)) as Hrun by (vm_compute; reflexivity).
  split; [rewrite Hrun; vm_compute; reflexivity|].
  intros df w'. rewrite Hrun. discriminate.
Qed.

(** A model whose [params] raises [ValueError]. *)
Lemma train_model_catches_ic_error_witness :
  exists r w2,
    train_model 3%positive Demo.X_train Demo.y_train Demo.error_metric "nelder" Demo.world
      = (Ok [(PInt 0, r)], w2) /\
    model r = PFloat NaN /\ model_result r = PFloat NaN /\ error r = NaN.
Proof.
  edestruct (train_model_catches_ic_error 3%positive Demo.X_train Demo.y_train
               Demo.error_metric "nelder" Demo.world Demo.BrokenModel)
    as (r & Hrun & Hrow).
  - discriminate.
  - reflexivity.
  - left. vm_compute. reflexivity.
  - exists r. eexists. split; [exact Hrun|exact Hrow].
Defined.

(** The same model on a window without rows: [get_ic_params] raises
    [ValueError], which is caught, and [train_model] raises [IndexError]
    instead of returning the record of a failed fit. *)
Lemma train_model_catches_ic_error_counterexample :
  let X_train := {| columns := ["A0"; "Ph"]%string; rows := [] |} in
  let copy := next_loc Demo.world in
  let w1 := store copy Demo.BrokenModel Demo.world in
  get_ic_params copy X_train w1 = (Raise ValueError, w1) /\
  train_model 3%positive X_train [] Demo.error_metric "nelder" Demo.world
    = (Raise IndexError, w1) /\
  forall df w', train_model 3%positive X_train [] Demo.error_metric "nelder" Demo.world
                <> (Ok df, w').
Proof.
  intros X_train copy w1.
  split; [vm_compute; reflexivity|].
  assert (train_model 3%positive X_train [] Demo.error_metric "nelder" Demo.world
          = (Raise IndexError, w1)) as Hrun by (vm_compute; reflexivity).
  split; [exact Hrun|].
  intros df w'. rewrite Hrun. discriminate.
Qed.

Lemma train_model_base_isolated_witness :
  let run := train_model 1%positive Demo.X_train Demo.y_train Demo.error_metric
               "nelder" Demo.world in
  heap (snd run) !! 1%positive = heap Demo.world !! 1%positive /\
  fst (getattr_params 1%positive (snd run)) = fst (getattr_params 1%positive Demo.world) /\
  (forall df i r fitted,
     fst run = Ok df -> (i, r) ∈ df -> model r = PRef fitted ->
     fitted <> 1%positive /\
     forall o', fst (getattr_params 1%positive (store fitted o' (snd run)))
                = fst (getattr_params 1%positive Demo.world)).
Proof.
  intros run.
  apply (train_model_base_isolated 1%positive Demo.X_train Demo.y_train
           Demo.error_metric "nelder" Demo.world (Demo.Model Demo.params)
           (fst run) (snd run)).
  - reflexivity.
  - exact demo_fit_preserves_others.
  - exact demo_fit_returns_self.
  - exact demo_predict_preserves_others.
  - exact demo_error_metric_preserves_heap.
  - apply surjective_pairing.
Defined.

(** Two splits and two models through the pool. *)
Lemma train_models_split_major_witness :
  exists df w',
    train_models [1%positive; 2%positive] Demo.X_train Demo.y_train Demo.error_metric
      (Some [(PNone, [0; 1]); (PNone, [2])]) "nelder" (-1) 10 Demo.world = (Ok df, w') /\
    length df = (2 * 2)%nat /\
    df.*1 = [PInt 0; PInt 1; PInt 2; PInt 3] /\
    (exists r, df !! 3%nat = Some (PInt 3, r) /\
       is_record_of Demo.X_train Demo.y_train Demo.error_metric "nelder"
         ([2], 2%positive) r).
Proof.
  eexists. eexists. split; [vm_compute; reflexivity|].
  edestruct (train_models_split_major [1%positive; 2%positive] Demo.X_train Demo.y_train
               Demo.error_metric (Some [(PNone, [0; 1]); (PNone, [2])]) "nelder" (-1) 10
               Demo.world)
    as (_ & _ & _ & Hlen & Hidx & Hpos & _).
  - intros _. exact demo_pool_in_submission_order.
  - vm_compute. reflexivity.
  - split; [exact Hlen|]. split; [exact Hidx|].
    exact (Hpos 1%nat 1%nat (PNone, [2]) 2%positive eq_refl eq_refl).
Defined.

(** Without splits and with an empty list of splits the window is one
    split: the table has one row per model, not [0 * m] rows; without models
    there is nothing to concatenate and [train_models] raises. *)
Lemma train_models_no_split_counterexample :
  (exists df w',
     train_models [1%positive; 2%positive] Demo.X_train Demo.y_train Demo.error_metric
       (Some []) "nelder" 1 10 Demo.world = (Ok df, w') /\
     length df = 2%nat /\
     length df <> (length (@nil (pyval * list Z)) * length [1%positive; 2%positive])%nat) /\
  fst (train_models [] Demo.X_train Demo.y_train Demo.error_metric
         (Some [(PNone, [0; 1]); (PNone, [2])]) "nelder" 1 10 Demo.world)
  = Raise ValueError.
Proof.
  split.
  - eexists. eexists. split; [vm_compute; reflexivity|]. split; [reflexivity|]. simpl. lia.
  - vm_compute. reflexivity.
Qed.

(** ** The reducer on explicit tables *)

Ltac table_eq :=
  repeat first [ reflexivity | apply Qc_is_canon; reflexivity | f_equal ].

(** The floats 0.123456 and 0.123455 both round to the float 0.12346 at five
    decimals (the product of the second with 1e5 is the float 12345.5, a tie
    that goes to the even 12346); the faster of the two records stays. *)
Example reduce_results_df_tie :
  reduce_results_df
    [(PInt 0, Demo.record (Fin (Qc_of_Z 2))
                (Fin (Q2Qc (8895942329546431 # 72057594037927936))));
     (PInt 1, Demo.record (Fin (Qc_of_Z 1))
                (Fin (Q2Qc (8895870271952393 # 72057594037927936))))] 5
  = [(PInt 0, Demo.record (Fin (Qc_of_Z 1))
                (Fin (Q2Qc (8896230559922583 # 72057594037927936))))].
Proof.
  vm_compute. table_eq.
Qed.

(** Rounding in binary64: 2.675 rounds to 2.68 (its product with 100 is the
    float 267.5) and 1.005 to 1.0 at two decimals, 12345.678 to 12300.0 at minus two, 2.5 to
    2.0 at none, and [2^1023], whose product with [1e6] is beyond the largest
    float, to infinity. *)
Example np_round_binary64 :
  np_round 2 (Fin (Q2Qc (3011782250804019 # 1125899906842624)))
  = Fin (Q2Qc (6034823500676465 # 2251799813685248)) /\
  np_round 2 (Fin (Q2Qc (1131529406376837 # 1125899906842624))) = Fin (Qc_of_Z 1) /\
  np_round (-2) (Fin (Q2Qc (848388532111147 # 68719476736))) = Fin (Qc_of_Z 12300) /\
  np_round 0 (Fin (Q2Qc (5 # 2))) = Fin (Qc_of_Z 2) /\
  np_round 6 (Fin (Qc_of_Z (2 ^ 1023))) = Inf false /\
  np_round 6 (Inf true) = Inf true /\
  np_round 6 NaN = NaN.
Proof.
  vm_compute. repeat split; table_eq.
Qed.

(** A finite error close to the largest float passes the cleaning and comes
    out of the rounding as infinity. *)
Example reduce_results_df_overflow :
  reduce_results_df
    [(PInt 0, Demo.record (Fin (Qc_of_Z 1)) (Inf false));
     (PInt 1, Demo.record (Fin (Qc_of_Z 1)) (Fin (Qc_of_Z (2 ^ 1023))))] 6
  = [(PInt 0, Demo.record (Fin (Qc_of_Z 1)) (Inf false))].
Proof.
  vm_compute. table_eq.
Qed.

(** A record with an infinite error, a record of a failed fit and a record
    with an infinite elapsed time are dropped; the others come out sorted by
    error. *)
Example reduce_results_df_drops :
  reduce_results_df
    [(PInt 0, Demo.record (Fin (Qc_of_Z 1)) (Inf false));
     (PInt 1, Demo.record (Fin (Qc_of_Z 1)) (Fin (Qc_of_Z 7)));
     (PInt 2, {| start_date := PInt 0; end_date := PInt 2; model := PFloat NaN;
                 model_result := PFloat NaN; time := Fin (Qc_of_Z 1);
                 method := PStr "nelder"; error := NaN |});
     (PInt 3, Demo.record (Inf false) (Fin (Qc_of_Z 3)));
     (PInt 4, Demo.record (Fin (Qc_of_Z 2)) (Fin (Qc_of_Z 5)))] 6
  = [(PInt 0, Demo.record (Fin (Qc_of_Z 2)) (Fin (Qc_of_Z 5)));
     (PInt 1, Demo.record (Fin (Qc_of_Z 1)) (Fin (Qc_of_Z 7)))].
Proof.
  vm_compute. table_eq.
Qed.

(** Halves round to the even neighbour. *)
Example rint_half_even :
  rint (1 # 2) = 0 /\ rint (3 # 2) = 2 /\ rint (5 # 2) = 2 /\ rint (- (1 # 2)) = 0 /\
  rint (7 # 4) = 2 /\ rint (- (7 # 4)) = -2.
Proof. vm_compute. repeat split. Qed.

(** * Further properties of the module *)

Section FitCoverage.

Context {Obj : Type} {C : Collaborators Obj}.

(** ** get_ic_params at its edges *)

Lemma row_getitem_Ok_or_KeyError (row : list (string * pyval)) (key : string) :
  row_getitem row key = Raise KeyError \/ exists v, row_getitem row key = Ok v.
Proof.
  unfold row_getitem.
  destruct (snd <$> filter (fun kv : string * pyval => fst kv = key) row) as [|v [|v' vs]];
    [by left|right; by eexists..].
Qed.

Lemma ic_loop_missing_column (X : DataFrame) lbl row0 rest (keys : list string) key
    (acc : gmap string pyval) :
  rows X = (lbl, row0) :: rest ->
  key ∈ keys -> has_zero_char key = true -> key ∉ columns X ->
  ic_loop X keys acc = Raise KeyError.
Proof.
  intros HX Hin Hz Hcol. revert acc.
  induction keys as [|k ks IH]; intros acc; [by apply elem_of_nil in Hin|].
  simpl. destruct (has_zero_char k) eqn:Hk.
  - rewrite (df_iloc0_first X lbl row0 rest HX). simpl.
    destruct (row_getitem_Ok_or_KeyError (zip (columns X) row0) k) as [->|[v Hv]];
      [reflexivity|].
    rewrite Hv. simpl.
    apply elem_of_cons in Hin as [->|Hin]; [|by apply IH].
    unfold row_getitem in Hv. by rewrite filter_label_absent in Hv.
  - apply elem_of_cons in Hin as [->|Hin]; [congruence|by apply IH].
Qed.

(** X1. On a non-empty window, a parameter name that contains '0' and names
    no column makes [get_ic_params] raise [KeyError], whatever the other
    parameters are; the state is left as it was. *)
Theorem get_ic_params_missing_column (model_ : loc) (X_train : DataFrame)
    (w : World Obj) (o : Obj) (params : list (string * pyval)) lbl row0 rest key :
  heap w !! model_ = Some o ->
  attr_params o = Ok params ->
  rows X_train = (lbl, row0) :: rest ->
  key ∈ params.*1 ->
  has_zero_char key = true ->
  key ∉ columns X_train ->
  get_ic_params model_ X_train w = (Raise KeyError, w).
Proof.
  intros Hw Hp HX Hin Hz Hcol.
  unfold get_ic_params, getattr_params, bind, deref, lift. rewrite Hw, Hp.
  by rewrite (ic_loop_missing_column X_train lbl row0 rest _ key ∅ HX Hin Hz Hcol).
Qed.

Lemma ic_loop_no_flag (X : DataFrame) (keys : list string) (acc : gmap string pyval) :
  Forall (fun k => has_zero_char k = false) keys -> ic_loop X keys acc = Ok acc.
Proof.
  induction 1 as [|k ks Hk _ IH]; [reflexivity|]. simpl. by rewrite Hk.
Qed.

Lemma ic_loop_empty_window (X : DataFrame) (keys : list string) (acc : gmap string pyval) :
  rows X = [] ->
  Exists (fun k => has_zero_char k = true) keys ->
  ic_loop X keys acc = Raise IndexError.
Proof.
  intros HX. induction 1 as [k ks Hk|k ks _ IH]; simpl.
  - rewrite Hk. unfold df_iloc0. by rewrite HX.
  - destruct (has_zero_char k); [|exact IH]. unfold df_iloc0. by rewrite HX.
Qed.

(** X2. On an empty window [get_ic_params] raises [IndexError] as soon as one
    parameter name contains '0' (the first row does not exist); when no
    parameter name contains '0' the window is never read and the result is
    the empty mapping. *)
Theorem get_ic_params_empty_window (model_ : loc) (X_train : DataFrame)
    (w : World Obj) (o : Obj) (params : list (string * pyval)) :
  heap w !! model_ = Some o ->
  attr_params o = Ok params ->
  rows X_train = [] ->
  (Exists (fun k => has_zero_char k = true) params.*1 ->
   get_ic_params model_ X_train w = (Raise IndexError, w)) /\
  (Forall (fun k => has_zero_char k = false) params.*1 ->
   get_ic_params model_ X_train w = (Ok ∅, w)).
Proof.
  intros Hw Hp HX.
  unfold get_ic_params, getattr_params, bind, deref, lift. rewrite Hw, Hp. split.
  - intros Hex. by rewrite (ic_loop_empty_window X_train _ ∅ HX Hex).
  - intros Hall. by rewrite (ic_loop_no_flag X_train _ ∅ Hall).
Qed.

(** ** train_model beyond the tolerated failure *)

Lemma fit_call_inv (self : loc) (X_train : DataFrame) (y_train : Series)
    (method_ : string) (w : World Obj) (fitted : loc) (w' : World Obj) :
  fit_call self X_train y_train method_ w = (Ok fitted, w') ->
  exists ic,
    call_fit self (df_to_dict_list X_train) (series_values y_train) method_ ic w
    = (Ok fitted, w').
Proof.
  unfold fit_call, bind, ret. intros H.
  pose proof (get_ic_params_state self X_train w) as Hst.
  destruct (get_ic_params self X_train w) as [[ic|e] w0]; simpl in Hst; subst w0;
    [by exists ic|discriminate].
Qed.

Ltac step_train_model :=
  unfold train_model, deepcopy;
  unfold bind, timer, deref, alloc, try_except_ValueError, lift, ret, single_row;
  cbv beta.

Ltac step_train_model_in H :=
  unfold train_model, deepcopy in H;
  unfold bind, timer, deref, alloc, try_except_ValueError, lift, ret, single_row in H;
  cbv beta in H.

(** X3. When fit, predict and the metric return on a non-empty window, the
    row of [train_model] holds the model that fit returned, the prediction
    of that model on the same window, the metric's value for the targets and
    the prediction's [Z], the method name, and as elapsed time the clock
    after predict minus the clock at entry: the time spent in the metric is
    not counted.  With a clock that does not run backwards during fit and
    predict the elapsed time is not negative. *)
Theorem train_model_success_row (base_model : loc) (X_train : DataFrame)
    (y_train : Series) (error_metric : ErrorMetric Obj) (method_ : string)
    (w : World Obj) (o : Obj) fitted w2 pred w3 res Z err w4 :
  rows X_train <> [] ->
  heap w !! base_model = Some o ->
  fit_call (next_loc w) X_train y_train method_ (store (next_loc w) o w) = (Ok fitted, w2) ->
  call_predict fitted X_train w2 = (Ok pred, w3) ->
  heap w3 !! pred = Some res ->
  attr_Z res = Ok Z ->
  error_metric (series_values y_train) Z w3 = (Ok err, w4) ->
  exists first last_,
    head (rows X_train).*1 = Some first /\
    last (rows X_train).*1 = Some last_ /\
    train_model base_model X_train y_train error_metric method_ w
    = (Ok [(PInt 0, {| start_date := first;
                       end_date := last_;
                       model := PRef fitted;
                       model_result := PRef pred;
                       time := Fin (clock w3 - clock w)%Qc;
                       method := PStr method_;
                       error := err |})], w4) /\
    ((forall self X y me ic, clock_monotone (call_fit self X y me ic)) ->
     (forall self X, clock_monotone (call_predict self X)) ->
     (0 <= clock w3 - clock w)%Qc).
Proof.
  intros Hne Hw Hfit Hpred Hres HZ Herr.
  destruct (df_index_bounds X_train Hne) as (first & last_ & H0 & H1 & Hh & Hl).
  exists first, last_. split; [done|]. split; [done|]. split.
  - step_train_model. rewrite Hw, Hfit. simpl.
    rewrite Hpred, H0, H1, Hres, HZ, Herr. reflexivity.
  - intros Hmf Hmp. destruct (fit_call_inv _ _ _ _ _ _ _ Hfit) as [ic Hcall].
    pose proof (Hmf (next_loc w) (df_to_dict_list X_train) (series_values y_train)
                  method_ ic (store (next_loc w) o w)) as Hc1.
    rewrite Hcall in Hc1. simpl in Hc1.
    pose proof (Hmp fitted X_train w2) as Hc2. rewrite Hpred in Hc2. simpl in Hc2.
    pose proof (Qcle_trans _ _ _ Hc1 Hc2) as Hc. apply Qcle_minus_iff in Hc. exact Hc.
Qed.

(** X4. Only the fit call stands in the [try] block: an exception raised by
    predict, and on a non-empty window one raised by the error metric, is
    raised by [train_model] as it is, [ValueError] included. *)
Theorem train_model_later_errors_propagate (base_model : loc) (X_train : DataFrame)
    (y_train : Series) (error_metric : ErrorMetric Obj) (method_ : string)
    (w : World Obj) (o : Obj) fitted w2 :
  heap w !! base_model = Some o ->
  fit_call (next_loc w) X_train y_train method_ (store (next_loc w) o w) = (Ok fitted, w2) ->
  (forall e w3,
     call_predict fitted X_train w2 = (Raise e, w3) ->
     train_model base_model X_train y_train error_metric method_ w = (Raise e, w3)) /\
  (forall pred w3 res Z e w4,
     rows X_train <> [] ->
     call_predict fitted X_train w2 = (Ok pred, w3) ->
     heap w3 !! pred = Some res ->
     attr_Z res = Ok Z ->
     error_metric (series_values y_train) Z w3 = (Raise e, w4) ->
     train_model base_model X_train y_train error_metric method_ w = (Raise e, w4)).
Proof.
  intros Hw Hfit. split.
  - intros e w3 Hpred. step_train_model. rewrite Hw, Hfit. simpl. by rewrite Hpred.
  - intros pred w3 res Z e w4 Hne Hpred Hres HZ Herr.
    destruct (df_index_bounds X_train Hne) as (first & last_ & H0 & H1 & _).
    step_train_model. rewrite Hw, Hfit. simpl.
    by rewrite Hpred, H0, H1, Hres, HZ, Herr.
Qed.

(** X5. On an empty window [train_model] never returns a table: after a
    caught [ValueError] the handler itself raises [IndexError] when it reads
    the first index value, and after a fit and a prediction that returned,
    the same read raises [IndexError] before the metric is called. *)
Theorem train_model_empty_window (base_model : loc) (X_train : DataFrame)
    (y_train : Series) (error_metric : ErrorMetric Obj) (method_ : string)
    (w : World Obj) (o : Obj) :
  rows X_train = [] ->
  heap w !! base_model = Some o ->
  (forall df w',
     train_model base_model X_train y_train error_metric method_ w <> (Ok df, w')) /\
  (forall w2,
     fit_call (next_loc w) X_train y_train method_ (store (next_loc w) o w)
     = (Raise ValueError, w2) ->
     train_model base_model X_train y_train error_metric method_ w
     = (Raise IndexError, w2)) /\
  (forall fitted w2 pred w3,
     fit_call (next_loc w) X_train y_train method_ (store (next_loc w) o w)
     = (Ok fitted, w2) ->
     call_predict fitted X_train w2 = (Ok pred, w3) ->
     train_model base_model X_train y_train error_metric method_ w
     = (Raise IndexError, w3)).
Proof.
  intros HX Hw.
  assert (df_index X_train 0 = Raise IndexError) as H0
    by (unfold df_index; by rewrite HX).
  split; [|split].
  - intros df w' Hrun.
    destruct (train_model_Ok_inv _ _ _ _ _ _ _ _ Hrun) as (r & _ & Hh & _).
    by rewrite HX in Hh.
  - intros w2 Hfit. step_train_model. rewrite Hw, Hfit. simpl. by rewrite H0.
  - intros fitted w2 pred w3 Hfit Hpred. step_train_model. rewrite Hw, Hfit. simpl.
    by rewrite Hpred, H0.
Qed.

(** ** Objects that exist before a call *)

Lemma train_model_frame (base_model : loc) (X_train : DataFrame) (y_train : Series)
    (error_metric : ErrorMetric Obj) (method_ : string) :
  (forall self X y me ic, preserves_others self (call_fit self X y me ic)) ->
  (forall self X y me ic, returns_self_or_new self (call_fit self X y me ic)) ->
  (forall self X, preserves_others self (call_predict self X)) ->
  (forall y_true y_pred, preserves_heap (error_metric y_true y_pred)) ->
  preserves_heap (train_model base_model X_train y_train error_metric method_).
Proof.
  intros Hfit Hret Hpred Hmetric w l Hl.
  destruct (train_model base_model X_train y_train error_metric method_ w)
    as [res w'] eqn:Hrun. simpl.
  step_train_model_in Hrun.
  destruct (heap w !! base_model) as [o|] eqn:Hw; [|by simplify_eq].
  assert (l <> next_loc w) as Hcopy.
  { intros ->. rewrite next_loc_fresh in Hl. by destruct Hl. }
  assert (heap (store (next_loc w) o w) !! l = heap w !! l) as Hw1
    by (by apply store_lookup_ne).
  destruct (fit_call (next_loc w) X_train y_train method_ (store (next_loc w) o w))
    as [fr w2] eqn:Hcall.
  destruct (fit_call_frame _ _ _ _ _ _ _ l Hfit Hret Hcall) as [Hw2 Hfitted];
    [done|by rewrite Hw1|].
  rewrite Hw1 in Hw2.
  destruct fr as [fitted|e].
  - specialize (Hfitted fitted eq_refl).
    pose proof (Hpred fitted X_train w2 l) as Hp.
    destruct (call_predict fitted X_train w2) as [pr w3] eqn:Hpr. simpl in Hp.
    rewrite Hw2 in Hp. specialize (Hp ltac:(done) Hl).
    destruct pr as [pred|e]; [|by simplify_eq].
    destruct (df_index X_train 0); [|by simplify_eq].
    destruct (df_index X_train (-1)); [|by simplify_eq].
    destruct (heap w3 !! pred) as [resobj|]; [|by simplify_eq].
    destruct (attr_Z resobj) as [Z|e]; [|by simplify_eq].
    pose proof (Hmetric (series_values y_train) Z w3 l) as Hm.
    destruct (error_metric (series_values y_train) Z w3) as [er w4] eqn:Her.
    simpl in Hm. rewrite Hp in Hm. specialize (Hm Hl).
    destruct er; by simplify_eq.
  - destruct (is_ValueError e); [|by simplify_eq].
    destruct (df_index X_train 0); [|by simplify_eq].
    destruct (df_index X_train (-1)); by simplify_eq.
Qed.

Lemma bind_preserves_heap {A B} (m : M Obj A) (f : A -> M Obj B) :
  preserves_heap m -> (forall a, preserves_heap (f a)) -> preserves_heap (bind m f).
Proof.
  intros Hm Hf w l Hl. unfold bind.
  pose proof (Hm w l Hl) as H1. destruct (m w) as [[a|e] w1]; simpl in *; [|done].
  rewrite <- H1. apply Hf. by rewrite H1.
Qed.

Lemma lift_preserves_heap {A} (r : result A) : preserves_heap (Obj := Obj) (lift r).
Proof. intros w l Hl. reflexivity. Qed.

Lemma mapM_preserves_heap {A B} (f : A -> M Obj B) (l : list A) :
  (forall x, preserves_heap (f x)) -> preserves_heap (mapM f l).
Proof.
  intros Hf. induction l as [|x t IH]; simpl.
  - intros w l Hl. reflexivity.
  - apply bind_preserves_heap; [apply Hf|]. intros y.
    apply bind_preserves_heap; [apply IH|]. intros ys w l Hl. reflexivity.
Qed.

(** X6. [train_model] changes no object that existed before the call, not
    the base model and not any other, whether it returns or raises: what fit
    and predict change is the copy or an object made during the call
    (collaborators assumed to change no earlier object but their
    receiver). *)
Theorem train_model_keeps_objects (base_model : loc) (X_train : DataFrame)
    (y_train : Series) (error_metric : ErrorMetric Obj) (method_ : string)
    (w : World Obj) (l : loc) :
  (forall self X y me ic, preserves_others self (call_fit self X y me ic)) ->
  (forall self X y me ic, returns_self_or_new self (call_fit self X y me ic)) ->
  (forall self X, preserves_others self (call_predict self X)) ->
  (forall y_true y_pred, preserves_heap (error_metric y_true y_pred)) ->
  is_Some (heap w !! l) ->
  heap (snd (train_model base_model X_train y_train error_metric method_ w)) !! l
  = heap w !! l.
Proof.
  intros Hfit Hret Hpred Hmetric Hl.
  by apply (train_model_frame base_model X_train y_train error_metric method_
              Hfit Hret Hpred Hmetric).
Qed.

(** X7. After the serial branch of [train_models], returned or raised, every
    object that existed before the call is as it was; so every candidate
    model keeps its state through the whole batch and can be trained
    again. *)
Theorem train_models_serial_keeps_objects (models : list loc) (X_train : DataFrame)
    (y_train : Series) (error_metric : ErrorMetric Obj)
    (splits : option (list (pyval * list Z))) (method_ : string) (verbose : Z)
    (w : World Obj) (l : loc) :
  (forall self X y me ic, preserves_others self (call_fit self X y me ic)) ->
  (forall self X y me ic, returns_self_or_new self (call_fit self X y me ic)) ->
  (forall self X, preserves_others self (call_predict self X)) ->
  (forall y_true y_pred, preserves_heap (error_metric y_true y_pred)) ->
  is_Some (heap w !! l) ->
  heap (snd (train_models models X_train y_train error_metric splits method_ 1 verbose w))
    !! l
  = heap w !! l.
Proof.
  intros Hfit Hret Hpred Hmetric Hl.
  unfold train_models. change (negb (1 =? 1)) with false. cbv iota zeta.
  apply bind_preserves_heap; [|intros; apply lift_preserves_heap|done].
  apply mapM_preserves_heap. intros job. unfold run_job.
  apply bind_preserves_heap; [apply lift_preserves_heap|]. intros X.
  apply bind_preserves_heap; [apply lift_preserves_heap|]. intros y.
  by apply train_model_frame.
Qed.

(** ** train_models at its edges *)

Lemma mapM_raise_at {A B} (f : A -> M Obj B) (pre post : list A) (x : A)
    (w w1 w2 : World Obj) (ys : list B) (e : exn) :
  mapM f pre w = (Ok ys, w1) ->
  f x w1 = (Raise e, w2) ->
  mapM f (pre ++ x :: post) w = (Raise e, w2).
Proof.
  revert w ys. induction pre as [|a pre IH]; intros w ys Hpre Hx; simpl in *.
  - unfold ret in Hpre. injection Hpre as _ <-. unfold bind. by rewrite Hx.
  - unfold bind, ret in *.
    destruct (f a w) as [[y|] wa]; [|discriminate].
    destruct (mapM f pre wa) as [[ys'|] wb] eqn:Hm; [|discriminate].
    injection Hpre as _ <-. by rewrite (IH wa ys' Hm Hx).
Qed.

(** X8. The serial branch stops at the first (split, model) pair whose
    training raises: when the pairs before it have returned their tables and
    the pair itself raises an exception (a split position outside the window,
    say, or an exception that [train_model] does not catch), [train_models]
    raises that exception in the state reached; the tables of the earlier
    pairs are not returned and the later pairs are not trained. *)
Theorem train_models_serial_fail_fast (models : list loc) (X_train : DataFrame)
    (y_train : Series) (error_metric : ErrorMetric Obj)
    (splits : option (list (pyval * list Z))) (method_ : string) (verbose : Z)
    (w : World Obj) pre job post frames w1 e w2 :
  jobs models (splits_or_default splits X_train) = pre ++ job :: post ->
  mapM (run_job X_train y_train error_metric method_) pre w = (Ok frames, w1) ->
  run_job X_train y_train error_metric method_ job w1 = (Raise e, w2) ->
  train_models models X_train y_train error_metric splits method_ 1 verbose w
  = (Raise e, w2).
Proof.
  intros Hjobs Hpre Hjob. unfold train_models.
  change (negb (1 =? 1)) with false. cbv iota zeta.
  rewrite Hjobs. unfold bind at 1.
  by rewrite (mapM_raise_at _ pre post job w w1 w2 frames e Hpre Hjob).
Qed.

Lemma jobs_no_models (ss : list (pyval * list Z)) : jobs [] ss = [].
Proof. induction ss as [|s ss IH]; [reflexivity|]. by rewrite jobs_cons, IH. Qed.

(** X9. With an empty list of models there is nothing to concatenate: the
    serial branch raises [ValueError] without touching the state, whatever
    the splits are, and the parallel branch, with a pool that returns its
    results in submission order, never returns a table. *)
Theorem train_models_no_models (X_train : DataFrame) (y_train : Series)
    (error_metric : ErrorMetric Obj) (splits : option (list (pyval * list Z)))
    (method_ : string) (verbose : Z) :
  (forall w,
     train_models [] X_train y_train error_metric splits method_ 1 verbose w
     = (Raise ValueError, w)) /\
  (pool_in_submission_order ->
   forall n_jobs w df w',
     train_models [] X_train y_train error_metric splits method_ n_jobs verbose w
     <> (Ok df, w')).
Proof.
  split.
  - intros w. unfold train_models.
    change (negb (1 =? 1)) with false. cbv iota zeta.
    by rewrite jobs_no_models.
  - intros Hpool n_jobs w df w' Hrun.
    destruct (train_models_rows _ _ _ _ _ _ _ _ _ _ _ (fun _ => Hpool) Hrun)
      as (rs & Hne & _ & Hrs).
    rewrite jobs_no_models in Hrs. apply Forall2_nil_inv_l in Hrs. done.
Qed.




Lemma splits_or_default_none (splits : option (list (pyval * list Z))) (X : DataFrame) :
  splits = None \/ splits = Some [] ->
  splits_or_default splits X = [(PNone, seqZ 0 (Z.of_nat (df_len X)))].
Proof. by intros [->| ->]. Qed.


Lemma rmapM_ext_Forall {A B} (f g : A -> result B) (l : list A) :
  Forall (fun x => f x = g x) l -> rmapM f l = rmapM g l.
Proof. induction 1 as [|x t Hx _ IH]; [reflexivity|]. simpl. by rewrite Hx, IH. Qed.

Lemma mapM_ext_Forall {A B} (f g : A -> M Obj B) (l : list A) :
  Forall (fun x => forall w, f x w = g x w) l -> forall w, mapM f l w = mapM g l w.
Proof.
  induction 1 as [|x t Hx _ IH]; intros w; [reflexivity|].
  simpl. unfold bind. rewrite Hx. destruct (g x w) as [[y|] w1]; [|reflexivity].
  by rewrite IH.
Qed.

(** [y.iloc[range(n)]] for [n] up to the length of [y] is the first [n]
    values. *)
Lemma series_iloc_prefix (y : list (pyval * pyval)) (n : nat) :
  (n <= length y)%nat -> series_iloc y (seqZ 0 (Z.of_nat n)) = Ok (take n y).
Proof.
  intros Hn. unfold series_iloc.
  pose proof (rmapM_py_index_range y n 0 ltac:(lia)) as H.
  change (Z.of_nat 0) with 0 in H. by rewrite H, drop_0.
Qed.

Lemma jobs_default_positions (models : list loc) (lbl : pyval) (idx : list Z) :
  Forall (fun job : list Z * loc => fst job = idx) (jobs models [(lbl, idx)]).
Proof.
  rewrite jobs_cons. simpl. rewrite app_nil_r.
  apply Forall_fmap. by apply Forall_true.
Qed.

(** X11. Without splits, target values beyond the length of [X_train] have
    no effect: [train_models] on a longer [y_train] does exactly what it does
    on the first [len(X_train)] values of it, in either branch. *)
Theorem train_models_long_target (models : list loc) (X_train : DataFrame)
    (y_train : Series) (error_metric : ErrorMetric Obj)
    (splits : option (list (pyval * list Z))) (method_ : string) (n_jobs verbose : Z)
    (w : World Obj) :
  splits = None \/ splits = Some [] ->
  (length (rows X_train) <= length y_train)%nat ->
  train_models models X_train y_train error_metric splits method_ n_jobs verbose w
  = train_models models X_train (take (length (rows X_train)) y_train) error_metric
      splits method_ n_jobs verbose w.
Proof.
  intros Hs Hlen. unfold train_models. cbv zeta.
  rewrite (splits_or_default_none splits X_train Hs).
  pose proof (jobs_default_positions models PNone (seqZ 0 (Z.of_nat (df_len X_train))))
    as Hjobs.
  assert (series_iloc (take (length (rows X_train)) y_train)
            (seqZ 0 (Z.of_nat (df_len X_train)))
          = series_iloc y_train (seqZ 0 (Z.of_nat (df_len X_train)))) as Hy.
  { unfold df_len. rewrite !series_iloc_prefix; [|done|rewrite length_take; lia].
    by rewrite take_take, Nat.min_id. }
  destruct (negb (n_jobs =? 1)).
  - unfold bind at 1 3. unfold lift at 1 3.
    rewrite (rmapM_ext_Forall
               (delayed_job X_train y_train error_metric method_)
               (delayed_job X_train (take (length (rows X_train)) y_train)
                  error_metric method_)); [reflexivity|].
    eapply Forall_impl; [exact Hjobs|]. intros job Hjob. simpl in Hjob.
    unfold delayed_job. by rewrite Hjob, Hy.
  - unfold bind at 1 2.
    rewrite (mapM_ext_Forall
               (run_job X_train y_train error_metric method_)
               (run_job X_train (take (length (rows X_train)) y_train)
                  error_metric method_)); [reflexivity|].
    eapply Forall_impl; [exact Hjobs|]. intros job Hjob w0. simpl in Hjob.
    unfold run_job. by rewrite Hjob, Hy.
Qed.

(** X12. For one model and no splits the serial branch is [train_model] on
    the whole window: the same table, or the same exception, in the same
    state. *)
Theorem train_models_single_is_train_model (model_ : loc) (X_train : DataFrame)
    (y_train : Series) (error_metric : ErrorMetric Obj) (method_ : string)
    (verbose : Z) (w : World Obj) :
  (length (rows X_train) <= length y_train)%nat ->
  train_models [model_] X_train y_train error_metric None method_ 1 verbose w
  = train_model model_ X_train (take (length (rows X_train)) y_train) error_metric
      method_ w.
Proof.
  intros Hlen. unfold train_models.
  change (negb (1 =? 1)) with false. cbv iota zeta.
  simpl jobs. simpl mapM. unfold run_job. simpl fst. simpl snd.
  unfold bind, lift, ret.
  rewrite df_iloc_whole. unfold df_len. rewrite (series_iloc_prefix y_train _ Hlen).
  destruct (train_model model_ X_train (take (length (rows X_train)) y_train)
              error_metric method_ w) as [[df|e] w'] eqn:Hrun; [|reflexivity].
  destruct (train_model_Ok_inv _ _ _ _ _ _ _ _ Hrun) as (r & -> & _).
  reflexivity.
Qed.

End FitCoverage.

(** ** The parallel and the serial branch *)

Section FitAgreement.

Context {Obj : Type} {C : Collaborators Obj}.

Lemma heap_kept_refl (w : World Obj) : heap_kept w w.
Proof. intros l _. reflexivity. Qed.

Lemma heap_kept_trans (w1 w2 w3 : World Obj) :
  heap_kept w1 w2 -> heap_kept w2 w3 -> heap_kept w1 w3.
Proof.
  intros H12 H23 l Hl. rewrite <- (H12 l Hl). apply H23. by rewrite (H12 l Hl).
Qed.

(** The runs of a loop over calls that change no earlier object. *)
Lemma mapM_Ok_between {A B} (f : A -> M Obj B) (l : list A) (w w' : World Obj)
    (ys : list B) :
  Forall (fun x => preserves_heap (f x)) l ->
  mapM f l w = (Ok ys, w') ->
  heap_kept w w' /\
  Forall2 (fun x y => exists w1 w2, f x w1 = (Ok y, w2) /\
                                    heap_kept w w1 /\ heap_kept w2 w') l ys.
Proof.
  revert w ys. induction l as [|x t IH]; intros w ys Hf H; simpl in H.
  - unfold ret in H. injection H as <- <-. split; [apply heap_kept_refl|constructor].
  - apply Forall_cons in Hf as [Hx Ht]. unfold bind, ret in H.
    pose proof (Hx w) as Hw1.
    destruct (f x w) as [[y|] w1] eqn:Hfx; [|discriminate]. simpl in Hw1.
    destruct (mapM f t w1) as [[ys'|] w2] eqn:Hm; [|discriminate].
    injection H as <- <-.
    destruct (IH w1 ys' Ht Hm) as [Hk Hall].
    split; [by eapply heap_kept_trans|].
    constructor.
    + exists w, w1. split; [done|]. split; [apply heap_kept_refl|done].
    + eapply Forall2_impl; [exact Hall|].
      intros x' y' (wa & wb & Hrun & Ha & Hb). exists wa, wb.
      split; [done|]. split; [by eapply heap_kept_trans|done].
Qed.

(** The initial conditions are read off the model object and the window. *)
Lemma get_ic_params_determined (self self' : loc) (X_train : DataFrame)
    (w w' : World Obj) :
  is_Some (heap w !! self) ->
  heap w !! self = heap w' !! self' ->
  fst (get_ic_params self X_train w) = fst (get_ic_params self' X_train w').
Proof.
  intros [o Ho] Heq. unfold get_ic_params, getattr_params, bind, deref, lift.
  rewrite <- Heq, Ho. by destruct (attr_params o).
Qed.

Lemma fit_call_determined (self self' : loc) (X_train : DataFrame) (y_train : Series)
    (method_ : string) (w w' : World Obj) :
  fit_determined ->
  is_Some (heap w !! self) ->
  heap w !! self = heap w' !! self' ->
  same_outcome (fit_call self X_train y_train method_ w)
               (fit_call self' X_train y_train method_ w').
Proof.
  intros Hfit Hself Heq. unfold fit_call, bind, ret.
  pose proof (get_ic_params_determined self self' X_train w w' Hself Heq) as Hic.
  pose proof (get_ic_params_state self X_train w) as Hst.
  pose proof (get_ic_params_state self' X_train w') as Hst'.
  destruct (get_ic_params self X_train w) as [r w0].
  destruct (get_ic_params self' X_train w') as [r' w0'].
  simpl in Hic, Hst, Hst'. subst r' w0 w0'.
  destruct r as [ic|e]; [|reflexivity].
  apply (Hfit (df_to_dict_list X_train) (series_values y_train) method_ ic
           self self' w w' Hself Heq).
Qed.

Ltac run_train_model_in H :=
  unfold train_model, deepcopy in H;
  unfold bind, timer, deref, alloc, try_except_ValueError, lift, ret, single_row in H;
  cbv beta in H.

(** The record of [train_model] is determined, the elapsed time apart, by
    the state of the base model and the arguments. *)
Lemma train_model_determined (base_model : loc) (X_train : DataFrame) (y_train : Series)
    (error_metric : ErrorMetric Obj) (method_ : string)
    (w1 w1' w2 w2' : World Obj) (r r' : Row) :
  fit_determined -> predict_determined -> metric_determined error_metric ->
  (forall y_true y_pred, preserves_heap (error_metric y_true y_pred)) ->
  heap w1 !! base_model = heap w1' !! base_model ->
  train_model base_model X_train y_train error_metric method_ w1
    = (Ok [(PInt 0, r)], w2) ->
  train_model base_model X_train y_train error_metric method_ w1'
    = (Ok [(PInt 0, r')], w2') ->
  rows_agree w2 r w2' r'.
Proof.
  intros Hfit Hpred Hmet Hkeep Hbase Hrun Hrun'.
  run_train_model_in Hrun. run_train_model_in Hrun'.
  rewrite <- Hbase in Hrun'.
  destruct (heap w1 !! base_model) as [o|]; [|discriminate].
  pose proof (fit_call_determined (next_loc w1) (next_loc w1') X_train y_train method_
                (store (next_loc w1) o w1) (store (next_loc w1') o w1') Hfit) as Hsame.
  assert (forall w : World Obj, heap (store (next_loc w) o w) !! next_loc w = Some o)
    as Hcopy by (intros w; apply lookup_insert_eq).
  rewrite !Hcopy in Hsame.
  specialize (Hsame ltac:(done) eq_refl). unfold same_outcome in Hsame.
  destruct (fit_call (next_loc w1) X_train y_train method_ (store (next_loc w1) o w1))
    as [[fitted|e] v].
  all: destruct (fit_call (next_loc w1') X_train y_train method_
                   (store (next_loc w1') o w1')) as [[fitted'|e'] v'].
  all: simpl in Hsame; try done.
  - destruct Hsame as [Hsome Heq].
    destruct (Hpred X_train fitted fitted' v v' Hsome Heq) as (Hout & Hsome2 & Heq2).
    unfold same_outcome in Hout.
    destruct (call_predict fitted X_train v) as [[pred|] t]; [|discriminate].
    destruct (call_predict fitted' X_train v') as [[pred'|] t']; [|discriminate].
    simpl in Hout, Hsome2, Heq2. destruct Hout as [Hpsome Hpeq].
    destruct (df_index X_train 0) as [first|]; [|discriminate].
    destruct (df_index X_train (-1)) as [last_|]; [|discriminate].
    rewrite <- Hpeq in Hrun'.
    destruct (heap t !! pred) as [res|] eqn:Hres; [|discriminate].
    destruct (attr_Z res) as [Z|]; [|discriminate].
    pose proof (Hmet (series_values y_train) Z t t') as Hval.
    pose proof (Hkeep (series_values y_train) Z t) as Hk.
    pose proof (Hkeep (series_values y_train) Z t') as Hk'.
    destruct (error_metric (series_values y_train) Z t) as [[err|] u]; [|discriminate].
    destruct (error_metric (series_values y_train) Z t') as [[err'|] u']; [|discriminate].
    simpl in Hval, Hk, Hk'. injection Hval as <-.
    injection Hrun as <- <-. injection Hrun' as <- <-.
    unfold rows_agree, cell_agrees. simpl.
    rewrite (Hk fitted Hsome2), (Hk pred) by (by rewrite Hres).
    rewrite (Hk' fitted') by (by rewrite <- Heq2).
    rewrite (Hk' pred') by (by rewrite <- Hpeq).
    rewrite Hres, <- Hpeq. done.
  - subst e'. destruct (is_ValueError e); [|discriminate].
    destruct (df_index X_train 0) as [first|]; [|discriminate].
    destruct (df_index X_train (-1)) as [last_|]; [|discriminate].
    injection Hrun as <- <-. injection Hrun' as <- <-.
    unfold rows_agree, cell_agrees. simpl. done.
Qed.

Lemma jobs_model (models : list loc) (ss : list (pyval * list Z)) (job : list Z * loc) :
  job ∈ jobs models ss -> snd job ∈ models.
Proof.
  induction ss as [|s ss IH]; [by intros ?%elem_of_nil|].
  rewrite jobs_cons, elem_of_app. intros [Hin|Hin]; [|by apply IH].
  apply list_elem_of_fmap in Hin as (model_ & -> & Hm). exact Hm.
Qed.

(** A returned table lists, in the order of the comprehension, one record per
    (split, model) pair, each of a run between the state before and the state
    after the call of [train_models]. *)
Lemma train_models_between (models : list loc) (X_train : DataFrame) (y_train : Series)
    (error_metric : ErrorMetric Obj) splits (method_ : string) (n_jobs verbose : Z)
    (w w' : World Obj) (df : ResultTable) :
  (n_jobs <> 1 -> pool_keeps_objects) ->
  (forall self X y me ic, preserves_others self (call_fit self X y me ic)) ->
  (forall self X y me ic, returns_self_or_new self (call_fit self X y me ic)) ->
  (forall self X, preserves_others self (call_predict self X)) ->
  (forall y_true y_pred, preserves_heap (error_metric y_true y_pred)) ->
  train_models models X_train y_train error_metric splits method_ n_jobs verbose w
    = (Ok df, w') ->
  exists rs,
    df = imap (fun i r => (PInt (Z.of_nat i), r)) rs /\
    Forall2 (fun job r =>
               is_record_between w w' X_train y_train error_metric method_ job
                 (single_row r))
            (jobs models (splits_or_default splits X_train)) rs.
Proof.
  intros Hpool Hfit Hret Hpred Hmetric Hrun. unfold train_models in Hrun.
  set (todo := jobs models (splits_or_default splits X_train)) in *.
  assert (forall base X y,
            preserves_heap (train_model base X y error_metric method_)) as Hframe
    by (intros; by apply train_model_frame).
  assert (exists frames, df = reset_index (concat frames) /\
            Forall2 (is_record_between w w' X_train y_train error_metric method_)
                    todo frames) as (frames & -> & Hall).
  { destruct (negb (n_jobs =? 1)) eqn:Hn.
    - apply negb_true_iff, Z.eqb_neq in Hn. specialize (Hpool Hn).
      unfold bind, lift in Hrun.
      destruct (rmapM (delayed_job X_train y_train error_metric method_) todo)
        as [calls|] eqn:Hcalls; [|discriminate].
      destruct (call_Parallel n_jobs verbose calls w) as [[frames|] w1] eqn:Hp;
        [|discriminate].
      destruct frames as [|f fs]; [discriminate|]. simpl in Hrun.
      injection Hrun as <- <-. exists (f :: fs). split; [done|].
      apply rmapM_Ok_Forall2 in Hcalls.
      assert (Forall (fun call => preserves_heap call) calls) as Hkeep.
      { clear Hp. induction Hcalls as [|job call todo' calls' Hjob _ IH];
          constructor; [|exact IH].
        unfold delayed_job, rbind in Hjob.
        destruct (df_iloc X_train (fst job)) as [X|]; [|discriminate].
        destruct (series_iloc y_train (fst job)) as [y|]; [|discriminate].
        injection Hjob as <-. apply Hframe. }
      apply (Hpool _ _ _ _ _ _ Hkeep) in Hp. clear Hkeep.
      revert Hcalls Hp. generalize (f :: fs). generalize calls. generalize todo.
      intros todo0. induction todo0 as [|job todo' IH]; intros cs fr Hc Hf.
      + inversion Hc; subst. inversion Hf; subst. constructor.
      + inversion Hc as [|? call ? cs' Hjob Hrest]; subst.
        inversion Hf as [|? frame ? fr' (w1' & w2' & Hcall & Hk1 & Hk2) Hrest']; subst.
        constructor; [|by eapply IH].
        unfold delayed_job, rbind in Hjob.
        destruct (df_iloc X_train (fst job)) as [X|] eqn:HX; [|discriminate].
        destruct (series_iloc y_train (fst job)) as [y|] eqn:Hy; [|discriminate].
        injection Hjob as <-. by exists X, y, w1', w2'.
    - unfold bind, lift in Hrun.
      destruct (mapM (run_job X_train y_train error_metric method_) todo w)
        as [[frames|] w1] eqn:Hm; [|discriminate].
      destruct frames as [|f fs]; [discriminate|]. simpl in Hrun.
      injection Hrun as <- <-. exists (f :: fs). split; [done|].
      apply mapM_Ok_between in Hm as [_ Hm].
      + eapply Forall2_impl; [exact Hm|].
        intros job frame (w1' & w2' & Hjob & Hk1 & Hk2).
        unfold run_job, bind, lift in Hjob.
        destruct (df_iloc X_train (fst job)) as [X|] eqn:HX; [|discriminate].
        destruct (series_iloc y_train (fst job)) as [y|] eqn:Hy; [|discriminate].
        by exists X, y, w1', w2'.
      + apply Forall_forall. intros job _. unfold run_job.
        apply bind_preserves_heap; [apply lift_preserves_heap|]. intros X.
        apply bind_preserves_heap; [apply lift_preserves_heap|]. intros y.
        apply Hframe. }
  assert (exists rs, frames = single_row <$> rs /\
            Forall2 (fun job r =>
                       is_record_between w w' X_train y_train error_metric method_ job
                         (single_row r)) todo rs)
    as (rs & -> & Hrs).
  { clear Hrun. induction Hall as [|job frame todo' frames' Hjob _ IH].
    - exists []. split; [reflexivity|constructor].
    - destruct IH as (rs & -> & Hrs).
      pose proof Hjob as (X & y & w1 & w2 & HX & Hy & Hcall & Hk).
      destruct (train_model_Ok_inv _ _ _ _ _ _ _ _ Hcall) as (r & -> & _).
      exists (r :: rs). split; [reflexivity|]. constructor; done. }
  exists rs. split; [|done]. apply reset_index_single_rows.
Qed.

Lemma cell_agrees_kept (w2 w w2' w' : World Obj) (v v' : pyval) :
  heap_kept w2 w -> heap_kept w2' w' ->
  cell_agrees w2 v w2' v' -> cell_agrees w v w' v'.
Proof.
  intros Hk Hk'. unfold cell_agrees.
  destruct v, v'; try done. intros [Hsome Heq].
  rewrite (Hk _ Hsome), (Hk' l0) by (by rewrite <- Heq). done.
Qed.

(** C4 (amended). For the same arguments and the same initial state, in
    which every candidate model is an object, the parallel branch and the
    serial branch, when both return, give tables with the same number of
    rows and the same index, whose rows at each position are records of the
    same (split, model) pair and hold the same in every field but the elapsed
    time: the same [start_date], [end_date], [method] and [error], and in
    [model] and [model_result] either the same marker of a failed fit or
    references to objects that have, at the end of the one call, the state
    that their counterparts have at the end of the other.  Assumed are a
    pool that hands over, in submission order, what the calls returned and
    keeps the objects; fit, predict and a metric whose outcome is determined
    by their receiver and arguments; and that they change no earlier object
    but their receiver. *)
Theorem train_models_parallel_serial (models : list loc) (X_train : DataFrame)
    (y_train : Series) (error_metric : ErrorMetric Obj)
    (splits : option (list (pyval * list Z))) (method_ : string) (n_jobs verbose : Z)
    (w wp ws : World Obj) (df_par df_ser : ResultTable) :
  pool_keeps_objects ->
  fit_determined -> predict_determined -> metric_determined error_metric ->
  (forall self X y me ic, preserves_others self (call_fit self X y me ic)) ->
  (forall self X y me ic, returns_self_or_new self (call_fit self X y me ic)) ->
  (forall self X, preserves_others self (call_predict self X)) ->
  (forall y_true y_pred, preserves_heap (error_metric y_true y_pred)) ->
  (forall model_, model_ ∈ models -> is_Some (heap w !! model_)) ->
  n_jobs <> 1 ->
  train_models models X_train y_train error_metric splits method_ n_jobs verbose w
    = (Ok df_par, wp) ->
  train_models models X_train y_train error_metric splits method_ 1 verbose w
    = (Ok df_ser, ws) ->
  length df_par = length df_ser /\
  df_par.*1 = df_ser.*1 /\
  forall n ip rp is_ rs,
    df_par !! n = Some (ip, rp) -> df_ser !! n = Some (is_, rs) ->
    ip = is_ /\
    start_date rp = start_date rs /\
    end_date rp = end_date rs /\
    cell_agrees wp (model rp) ws (model rs) /\
    cell_agrees wp (model_result rp) ws (model_result rs) /\
    method rp = method rs /\
    error rp = error rs /\
    exists job,
      jobs models (splits_or_default splits X_train) !! n = Some job /\
      is_record_of X_train y_train error_metric method_ job rp /\
      is_record_of X_train y_train error_metric method_ job rs.
Proof.
  intros Hpool Hfitd Hpredd Hmetd Hfit Hret Hpred Hmetric Hlive Hn Hpar Hser.
  destruct (train_models_between _ _ _ _ _ _ _ _ _ _ _
              (fun _ => Hpool) Hfit Hret Hpred Hmetric Hpar) as (rsp & -> & Hp).
  destruct (train_models_between _ _ _ _ _ _ _ _ _ _ _
              (fun _ => Hpool) Hfit Hret Hpred Hmetric Hser) as (rss & -> & Hs).
  pose proof (Forall2_length _ _ _ Hp) as Hlp.
  pose proof (Forall2_length _ _ _ Hs) as Hls.
  split; [rewrite !length_imap; lia|]. split.
  - rewrite !imap_index_labels. f_equal. f_equal. lia.
  - intros n ip rp is_ rs Hrp Hrs.
    rewrite list_lookup_imap in Hrp, Hrs.
    destruct (rsp !! n) as [rp'|] eqn:Hrp'; [|discriminate].
    destruct (rss !! n) as [rs'|] eqn:Hrs'; [|discriminate].
    simpl in Hrp, Hrs. simplify_eq.
    destruct (Forall2_lookup_r _ _ _ _ _ Hp Hrp') as (job & Hjob & Hrecp).
    destruct (Forall2_lookup_r _ _ _ _ _ Hs Hrs') as (job' & Hjob' & Hrecs).
    simplify_eq.
    destruct Hrecp as (X & y & w1 & w2 & HX & Hy & Hcall & Hk1 & Hk2).
    destruct Hrecs as (X' & y' & w1' & w2' & HX' & Hy' & Hcall' & Hk1' & Hk2').
    rewrite HX in HX'. injection HX' as <-. rewrite Hy in Hy'. injection Hy' as <-.
    assert (is_Some (heap w !! snd job)) as Hbase.
    { apply Hlive. eapply jobs_model. by eapply list_elem_of_lookup_2. }
    assert (heap w1 !! snd job = heap w1' !! snd job) as Heq
      by (by rewrite (Hk1 _ Hbase), (Hk1' _ Hbase)).
    destruct (train_model_determined _ _ _ _ _ _ _ _ _ _ _
                Hfitd Hpredd Hmetd Hmetric Heq Hcall Hcall')
      as (Hsd & Hed & Hm & Hmr & Hme & Herr).
    split; [done|]. split; [done|]. split; [done|].
    split; [by eapply cell_agrees_kept|]. split; [by eapply cell_agrees_kept|].
    split; [done|]. split; [done|].
    exists job. split; [done|]. split.
    + by exists X, y, w1, w2.
    + by exists X, y, w1', w2'.
Qed.

End FitAgreement.

(** The small model family meets the assumptions of the comparison. *)
Lemma demo_pool_keeps_objects :
  pool_keeps_objects (C := Demo.collaborators).
Proof.
  intros n_jobs verbose calls w frames w' Hkeep Hrun. simpl in Hrun.
  unfold Demo.pool, bind, ret in Hrun.
  destruct (mapM (fun call => call) (reverse calls) w) as [[fs|] w1] eqn:Hm; [|discriminate].
  injection Hrun as <- <-.
  apply mapM_Ok_between in Hm as [_ Hm]; [|by apply Forall_reverse].
  apply Forall2_reverse in Hm. rewrite reverse_involutive in Hm. exact Hm.
Qed.

Lemma demo_fit_determined : fit_determined (C := Demo.collaborators).
Proof.
  intros X y me ic self self' w w' [o Ho] Heq. simpl.
  unfold same_outcome, Demo.fit. rewrite <- Heq, Ho.
  case_bool_decide; [|simpl; by rewrite <- Heq, Ho].
  destruct o; simpl; rewrite ?lookup_insert_eq; try (by rewrite <- Heq, Ho).
  done.
Qed.

Lemma demo_predict_determined : predict_determined (C := Demo.collaborators).
Proof.
  intros X self self' w w' [o Ho] Heq. simpl.
  unfold same_outcome, Demo.predict, alloc, store. simpl.
  rewrite !lookup_insert_eq.
  assert (forall (v : World Demo.obj) l, is_Some (heap v !! l) ->
            next_loc (Demo.advance (Qc_of_Z 1) v) <> l) as Hfresh.
  { intros v l Hl <-.
    pose proof (next_loc_fresh (Demo.advance (Qc_of_Z 1) v)) as Hf. simpl in Hf.
    rewrite Hf in Hl. by destruct Hl. }
  rewrite !lookup_insert_ne by (apply Hfresh; by rewrite <- ?Heq, Ho).
  rewrite <- Heq, Ho. done.
Qed.

Lemma demo_error_metric_determined : metric_determined Demo.error_metric.
Proof. intros y_true y_pred w w'. reflexivity. Qed.

(** The same call through the pool and in the serial branch. *)
Lemma train_models_parallel_serial_witness :
  exists df_par wp df_ser ws,
    train_models [1%positive; 2%positive] Demo.X_train Demo.y_train Demo.error_metric
      None "nelder" (-1) 10 Demo.world = (Ok df_par, wp) /\
    train_models [1%positive; 2%positive] Demo.X_train Demo.y_train Demo.error_metric
      None "nelder" 1 10 Demo.world = (Ok df_ser, ws) /\
    length df_par = length df_ser /\
    df_par.*1 = df_ser.*1 /\
    forall n ip rp is_ rs,
      df_par !! n = Some (ip, rp) -> df_ser !! n = Some (is_, rs) ->
      ip = is_ /\
      start_date rp = start_date rs /\
      end_date rp = end_date rs /\
      cell_agrees wp (model rp) ws (model rs) /\
      cell_agrees wp (model_result rp) ws (model_result rs) /\
      method rp = method rs /\
      error rp = error rs /\
      exists job,
        jobs [1%positive; 2%positive] (splits_or_default None Demo.X_train) !! n = Some job /\
        is_record_of Demo.X_train Demo.y_train Demo.error_metric "nelder" job rp /\
        is_record_of Demo.X_train Demo.y_train Demo.error_metric "nelder" job rs.
Proof.
  do 4 eexists. split; [vm_compute; reflexivity|]. split; [vm_compute; reflexivity|].
  eapply (train_models_parallel_serial [1%positive; 2%positive] Demo.X_train Demo.y_train
            Demo.error_metric None "nelder" (-1) 10 Demo.world).
  - exact demo_pool_keeps_objects.
  - exact demo_fit_determined.
  - exact demo_predict_determined.
  - exact demo_error_metric_determined.
  - exact demo_fit_preserves_others.
  - exact demo_fit_returns_self.
  - exact demo_predict_preserves_others.
  - exact demo_error_metric_preserves_heap.
  - intros model_ Hin. rewrite !elem_of_cons in Hin.
    destruct Hin as [->|[->|Hin]]; [| |by apply elem_of_nil in Hin];
      vm_compute; eexists; reflexivity.
  - discriminate.
  - vm_compute. reflexivity.
  - vm_compute. reflexivity.
Defined.

(** The pool above meets what is assumed of it, and so do fit, predict and
    the metric, yet the table of the parallel branch differs from that of
    the serial branch, in the elapsed time: the first fit after start-up is
    the slow one, and it is the fit of the first row in the serial branch and
    of the last row in the pool.  The rows hold the same in all other
    fields. *)
Lemma train_models_parallel_serial_counterexample :
  pool_in_submission_order (C := Demo.collaborators) /\
  pool_keeps_objects (C := Demo.collaborators) /\
  fit_determined (C := Demo.collaborators) /\
  predict_determined (C := Demo.collaborators) /\
  metric_determined Demo.error_metric /\
  exists df_par wp df_ser ws r_par r_ser,
    train_models [1%positive; 2%positive] Demo.X_train Demo.y_train Demo.error_metric
      None "nelder" (-1) 10 Demo.world = (Ok df_par, wp) /\
    train_models [1%positive; 2%positive] Demo.X_train Demo.y_train Demo.error_metric
      None "nelder" 1 10 Demo.world = (Ok df_ser, ws) /\
    df_par !! 0%nat = Some (PInt 0, r_par) /\
    df_ser !! 0%nat = Some (PInt 0, r_ser) /\
    time r_par = Fin (Qc_of_Z 2) /\
    time r_ser = Fin (Qc_of_Z 3) /\
    time r_par <> time r_ser /\
    df_par <> df_ser /\
    rows_agree wp r_par ws r_ser.
Proof.
  split; [exact demo_pool_in_submission_order|].
  split; [exact demo_pool_keeps_objects|].
  split; [exact demo_fit_determined|].
  split; [exact demo_predict_determined|].
  split; [exact demo_error_metric_determined|].
  do 6 eexists. split; [vm_compute; reflexivity|]. split; [vm_compute; reflexivity|].
  split; [reflexivity|]. split; [reflexivity|].
  cbn [time].
  split; [apply (f_equal Fin), Qc_is_canon; reflexivity|].
  split; [apply (f_equal Fin), Qc_is_canon; reflexivity|].
  split; [intros [=]|]. split; [intros [=]|].
  unfold rows_agree, cell_agrees. cbn [start_date end_date model model_result method error].
  repeat split; try (vm_compute; eexists; reflexivity); vm_compute; table_eq.
Qed.

(** ** The reduced table *)

Lemma float_le_antisym (a b : pyfloat) : float_le a b -> float_le b a -> a = b.
Proof.
  unfold float_le.
  destruct a as [|[]|p], b as [|[]|q]; simpl; try discriminate; try reflexivity.
  rewrite !bool_decide_eq_true. intros H1 H2. f_equal. by apply Qcle_antisym.
Qed.

Global Instance float_le_antisymm : AntiSymm (=) float_le.
Proof. intros a b. apply float_le_antisym. Qed.

Lemma float_le_refl (a : pyfloat) : float_le a a.
Proof. by destruct (total float_le a a). Qed.

Lemma reset_index_errors (df : ResultTable) :
  (fun o => error (snd o)) <$> reset_index df = (fun o => error (snd o)) <$> df.
Proof.
  apply list_eq. intros n. unfold reset_index.
  rewrite !list_lookup_fmap, list_lookup_imap. by destruct (df !! n).
Qed.

Lemma reduce_errors_sorted (df : ResultTable) (decimals : Z) :
  StronglySorted float_le ((fun o => error (snd o)) <$> reduce_results_df df decimals).
Proof.
  unfold reduce_results_df. rewrite reset_index_errors.
  apply (StronglySorted_fmap (fun o : pyval * Row => error (snd o)) error_le float_le).
  - intros x y H. exact H.
  - apply StronglySorted_merge_sort; apply _.
Qed.

Lemma reduce_errors_NoDup (df : ResultTable) (decimals : Z) :
  NoDup ((fun o => error (snd o)) <$> reduce_results_df df decimals).
Proof.
  unfold reduce_results_df. rewrite reset_index_errors.
  unfold sort_values_error. rewrite merge_sort_Permutation.
  apply drop_duplicates_from_NoDup.
Qed.

(** The error values of the reduced table are the rounded errors of the rows
    without a missing or infinite field. *)
Lemma reduce_errors_elem (df : ResultTable) (decimals : Z) (e : pyfloat) :
  e ∈ (fun o => error (snd o)) <$> reduce_results_df df decimals <->
  exists i r, (i, r) ∈ df /\ row_has_na r = false /\ row_has_inf r = false /\
              e = float_round decimals (error r).
Proof.
  split.
  - intros Hin. apply list_elem_of_fmap in Hin as (o & -> & Ho).
    destruct (reduce_results_df_source df decimals o Ho) as (i & r & Hr & Hna & Hinf & Heq).
    exists i, r. by rewrite Heq.
  - intros (i & r & Hin & Hna & Hinf & ->).
    unfold reduce_results_df. rewrite reset_index_errors.
    unfold sort_values_error. rewrite merge_sort_Permutation.
    assert ((i, row_round_error decimals r)
              ∈ sort_values_time (round_error decimals (dropna (replace_inf df)))) as Hx.
    { unfold sort_values_time. rewrite merge_sort_Permutation.
      apply elem_of_cleaned. by exists r. }
    apply list_elem_of_split in Hx as (l1 & l2 & Hsplit).
    destruct (drop_duplicates_from_first [] l1 l2 (i, row_round_error decimals r))
      as (y & Hy & Herr & _); [apply not_elem_of_nil|].
    rewrite <- Hsplit in Hy. apply list_elem_of_fmap. exists y. by split.
Qed.

(** X13. What the reduced table can hold: no field other than the error is
    missing or infinite, the elapsed time is a finite number, and the error is
    the rounding of a finite value (the rounding turns a finite value into an
    infinity when its scaling overflows). *)
Theorem reduce_output_clean (df : ResultTable) (decimals : Z) (o : pyval * Row) :
  o ∈ reduce_results_df df decimals ->
  (val_isna (start_date (snd o)) = false /\ val_is_inf (start_date (snd o)) = false) /\
  (val_isna (end_date (snd o)) = false /\ val_is_inf (end_date (snd o)) = false) /\
  (val_isna (model (snd o)) = false /\ val_is_inf (model (snd o)) = false) /\
  (val_isna (model_result (snd o)) = false /\ val_is_inf (model_result (snd o)) = false) /\
  (val_isna (method (snd o)) = false /\ val_is_inf (method (snd o)) = false) /\
  (exists t, time (snd o) = Fin t) /\
  (exists q, error (snd o) = float_round decimals (Fin q)).
Proof.
  intros Ho.
  destruct (reduce_results_df_source df decimals o Ho) as (i & r & Hr & Hna & Hinf & Heq).
  destruct (row_clean_error r Hna Hinf) as [q Hq].
  unfold row_has_na in Hna. unfold row_has_inf in Hinf.
  rewrite !orb_false_iff in Hna, Hinf.
  destruct Hna as [[[[[[N1 N2] N3] N4] N5] N6] N7].
  destruct Hinf as [[[[[[I1 I2] I3] I4] I5] I6] I7].
  rewrite Heq. simpl. repeat split; try done.
  - destruct (time r) as [| |t]; try discriminate. by exists t.
  - exists q. by rewrite Hq.
Qed.

(** X14. Best fit first: the error of the first row of the reduced table is
    not greater than the rounded error of any row without a missing or
    infinite field. *)
Theorem reduce_best_first (df : ResultTable) (decimals : Z) (o : pyval * Row)
    (i : pyval) (r : Row) :
  reduce_results_df df decimals !! 0%nat = Some o ->
  (i, r) ∈ df -> row_has_na r = false -> row_has_inf r = false ->
  float_le (error (snd o)) (float_round decimals (error r)).
Proof.
  intros Ho Hin Hna Hinf.
  assert (float_round decimals (error r)
            ∈ (fun o => error (snd o)) <$> reduce_results_df df decimals) as He
    by (apply reduce_errors_elem; by exists i, r).
  apply list_elem_of_lookup in He as [n Hn].
  assert (((fun o => error (snd o)) <$> reduce_results_df df decimals) !! 0%nat
          = Some (error (snd o))) as H0 by (by rewrite list_lookup_fmap, Ho).
  destruct n as [|n].
  - rewrite H0 in Hn. injection Hn as <-. apply float_le_refl.
  - eapply (StronglySorted_lookup float_le _ 0 (S n));
      [apply reduce_errors_sorted|exact H0|exact Hn|lia].
Qed.

(** X15. The reduced table is empty exactly when every row of the table
    given has a missing or an infinite field; a batch in which every fit failed
    reduces to nothing. *)
Theorem reduce_empty_iff (df : ResultTable) (decimals : Z) :
  reduce_results_df df decimals = [] <->
  forall i r, (i, r) ∈ df -> row_has_na r = true \/ row_has_inf r = true.
Proof.
  split.
  - intros Hempty i r Hin.
    destruct (row_has_na r) eqn:Hna; [by left|].
    destruct (row_has_inf r) eqn:Hinf; [by right|].
    assert (float_round decimals (error r)
              ∈ (fun o => error (snd o)) <$> reduce_results_df df decimals) as He
      by (apply reduce_errors_elem; by exists i, r).
    rewrite Hempty in He. by apply elem_of_nil in He.
  - intros Hall. destruct (reduce_results_df df decimals) as [|o out] eqn:Hout; [done|].
    destruct (reduce_results_df_source df decimals o) as (i & r & Hr & Hna & Hinf & _).
    { rewrite Hout. left. }
    destruct (Hall i r Hr); congruence.
Qed.

(** X16. The ranking does not depend on the order of the rows given: two
    tables with the same rows in another order reduce to tables with the same
    list of error values. *)
Theorem reduce_errors_order_independent (df df' : ResultTable) (decimals : Z) :
  df ≡ₚ df' ->
  (fun o => error (snd o)) <$> reduce_results_df df decimals
  = (fun o => error (snd o)) <$> reduce_results_df df' decimals.
Proof.
  intros Hperm. apply (StronglySorted_unique float_le).
  - apply reduce_errors_sorted.
  - apply reduce_errors_sorted.
  - apply NoDup_Permutation; [apply reduce_errors_NoDup..|].
    intros e. rewrite !reduce_errors_elem.
    split; intros (i & r & Hin & H); exists i, r; (split; [|exact H]).
    + by rewrite <- Hperm.
    + by rewrite Hperm.
Qed.

(** ** Reducing twice *)

Lemma fmap_fixed {A} (f : A -> A) (l : list A) :
  (forall x, x ∈ l -> f x = x) -> f <$> l = l.
Proof.
  intros Hf. rewrite <- (list_fmap_id l) at 2.
  apply list_fmap_ext. intros n x Hx. apply Hf. by eapply list_elem_of_lookup_2.
Qed.

Lemma filter_all {A} (P : A -> Prop) `{!forall x, Decision (P x)} (l : list A) :
  (forall x, x ∈ l -> P x) -> filter P l = l.
Proof.
  induction l as [|a l IH]; intros HP; [reflexivity|].
  rewrite filter_cons_True by (apply HP; left).
  f_equal. apply IH. intros x Hx. apply HP. by right.
Qed.

Lemma drop_duplicates_from_NoDup_id (seen : list pyfloat) (df : ResultTable) :
  NoDup ((fun o => error (snd o)) <$> df) ->
  (forall x, x ∈ df -> error (snd x) ∉ seen) ->
  drop_duplicates_from seen df = df.
Proof.
  revert seen. induction df as [|r rest IH]; intros seen Hnd Hseen; [reflexivity|].
  simpl. rewrite fmap_cons in Hnd. apply NoDup_cons in Hnd as [Hr Hnd].
  rewrite bool_decide_eq_false_2 by (apply Hseen; left).
  f_equal. apply IH; [done|]. intros x Hx Hin.
  apply elem_of_cons in Hin as [Heq|Hin].
  - apply Hr. rewrite <- Heq. by apply (list_elem_of_fmap_2 (fun o => error (snd o))).
  - apply (Hseen x); [by right|done].
Qed.

Lemma reset_index_idempotent (df : ResultTable) :
  reset_index (reset_index df) = reset_index df.
Proof.
  apply list_eq. intros n. unfold reset_index.
  rewrite !list_lookup_imap. by destruct (df !! n).
Qed.

Lemma error_le_sorted_iff (df : ResultTable) :
  StronglySorted float_le ((fun o => error (snd o)) <$> df) -> StronglySorted error_le df.
Proof.
  induction df as [|x df IH]; intros Hs; [constructor|].
  rewrite fmap_cons in Hs. apply StronglySorted_cons in Hs as [Hall Hs].
  apply StronglySorted_cons. split; [|by apply IH].
  rewrite Forall_fmap in Hall. exact Hall.
Qed.

(** X17. Where the errors of the reduced table are finite numbers that the
    rounding leaves as they are, reducing the reduced table with the same
    precision changes nothing: no row is dropped, no error moves, and the
    order and the index stay. *)
Theorem reduce_results_df_idempotent (df : ResultTable) (decimals : Z) :
  (forall o, o ∈ reduce_results_df df decimals ->
     (exists q, error (snd o) = Fin q) /\
     float_round decimals (error (snd o)) = error (snd o)) ->
  reduce_results_df (reduce_results_df df decimals) decimals
  = reduce_results_df df decimals.
Proof.
  intros Hstable.
  set (out := reduce_results_df df decimals) in *.
  assert (forall o, o ∈ out ->
            row_has_na (snd o) = false /\ row_has_inf (snd o) = false /\
            row_round_error decimals (snd o) = snd o) as Hclean.
  { intros o Ho. destruct (Hstable o Ho) as [[q Hq] Hfix].
    destruct (reduce_results_df_source df decimals o Ho) as (i & r & _ & Hna & Hinf & Heq).
    rewrite Heq in Hq, Hfix. simpl in Hq, Hfix.
    unfold row_has_na in Hna |- *. unfold row_has_inf in Hinf |- *.
    rewrite !orb_false_iff in Hna, Hinf.
    destruct Hna as [[[[[[N1 N2] N3] N4] N5] N6] N7].
    destruct Hinf as [[[[[[I1 I2] I3] I4] I5] I6] I7].
    rewrite Heq. simpl.
    rewrite N1, N2, N3, N4, N5, N6, I1, I2, I3, I4, I5, I6, Hq. simpl.
    split; [done|]. split; [done|].
    unfold row_round_error. simpl. by rewrite Hfix. }
  assert (round_error decimals (dropna (replace_inf out)) = out) as Hstage.
  { assert (replace_inf out = out) as ->.
    { unfold replace_inf. apply fmap_fixed. intros [i r] Ho.
      destruct (Hclean _ Ho) as (_ & Hinf & _). simpl in *.
      by rewrite row_replace_inf_id. }
    assert (dropna out = out) as ->.
    { unfold dropna. apply filter_all. intros o Ho. by destruct (Hclean _ Ho). }
    unfold round_error. apply fmap_fixed. intros [i r] Ho.
    destruct (Hclean _ Ho) as (_ & _ & Hr). simpl in *. by rewrite Hr. }
  assert (NoDup ((fun o => error (snd o)) <$> out)) as Hnd
    by apply reduce_errors_NoDup.
  unfold reduce_results_df at 1. rewrite Hstage.
  assert (drop_duplicates_error (sort_values_time out) = sort_values_time out) as ->.
  { apply drop_duplicates_from_NoDup_id; [|intros; apply not_elem_of_nil].
    unfold sort_values_time. by rewrite merge_sort_Permutation. }
  assert (sort_values_error (sort_values_time out) = out) as ->.
  { apply (StronglySorted_unique_strong error_le).
    - intros x1 x2 H1 H2 H12 H21.
      unfold sort_values_error, sort_values_time in H1.
      rewrite !merge_sort_Permutation in H1.
      pose proof (float_le_antisym _ _ H12 H21) as Heq.
      apply list_elem_of_lookup in H1 as [n1 Hn1].
      apply list_elem_of_lookup in H2 as [n2 Hn2].
      assert (n1 = n2) as ->; [|congruence].
      eapply NoDup_lookup; [exact Hnd| |].
      + by rewrite list_lookup_fmap, Hn1.
      + rewrite list_lookup_fmap, Hn2. simpl. by rewrite Heq.
    - apply StronglySorted_merge_sort; apply _.
    - apply error_le_sorted_iff, reduce_errors_sorted.
    - unfold sort_values_error, sort_values_time. by rewrite !merge_sort_Permutation. }
  unfold out, reduce_results_df. apply reset_index_idempotent.
Qed.

(** ** The further properties on the small model family *)

Lemma demo_predict_clock_monotone self X :
  clock_monotone (@call_predict _ Demo.collaborators self X).
Proof.
  intros w. simpl. unfold Demo.predict, alloc, store. simpl.
  by apply demo_advance_clock.
Qed.

(** A window without the column A0. *)
Lemma get_ic_params_missing_column_witness :
  get_ic_params 1%positive
    {| columns := ["Ph"%string]; rows := [(PInt 0, [PFloat (Fin (Qc_of_Z 1))])] |}
    Demo.world
  = (Raise KeyError, Demo.world).
Proof.
  apply (get_ic_params_missing_column 1%positive _ Demo.world (Demo.Model Demo.params)
           Demo.params (PInt 0) [PFloat (Fin (Qc_of_Z 1))] [] "A0"%string).
  - reflexivity.
  - reflexivity.
  - reflexivity.
  - left.
  - reflexivity.
  - simpl. intros Hin. apply elem_of_cons in Hin as [Heq|Hin]; [discriminate|].
    by apply elem_of_nil in Hin.
Defined.

Lemma get_ic_params_empty_window_witness :
  get_ic_params 1%positive {| columns := ["A0"; "Ph"]%string; rows := [] |} Demo.world
  = (Raise IndexError, Demo.world).
Proof.
  destruct (get_ic_params_empty_window 1%positive
              {| columns := ["A0"; "Ph"]%string; rows := [] |} Demo.world
              (Demo.Model Demo.params) Demo.params) as [Hflag _].
  - reflexivity.
  - reflexivity.
  - reflexivity.
  - apply Hflag. left. reflexivity.
Defined.

Lemma train_model_success_row_witness :
  exists fitted pred elapsed err w4,
    train_model 1%positive Demo.X_train Demo.y_train Demo.error_metric "nelder" Demo.world
    = (Ok [(PInt 0, {| start_date := PInt 0;
                       end_date := PInt 2;
                       model := PRef fitted;
                       model_result := PRef pred;
                       time := Fin elapsed;
                       method := PStr "nelder";
                       error := err |})], w4) /\
    (0 <= elapsed)%Qc.
Proof.
  edestruct (train_model_success_row 1%positive Demo.X_train Demo.y_train
               Demo.error_metric "nelder" Demo.world (Demo.Model Demo.params))
    as (first & last_ & Hh & Hl & Hrun & Htime).
  - discriminate.
  - reflexivity.
  - vm_compute. reflexivity.
  - vm_compute. reflexivity.
  - vm_compute. reflexivity.
  - reflexivity.
  - vm_compute. reflexivity.
  - injection Hh as <-. injection Hl as <-.
    do 5 eexists. split; [exact Hrun|].
    apply Htime; [exact demo_fit_clock_monotone|exact demo_predict_clock_monotone].
Defined.

(** A metric that raises [ValueError]. *)
Lemma train_model_later_errors_propagate_witness :
  fst (train_model 1%positive Demo.X_train Demo.y_train
         (fun _ _ => lift (Raise ValueError)) "nelder" Demo.world)
  = Raise ValueError.
Proof.
  edestruct (train_model_later_errors_propagate 1%positive Demo.X_train Demo.y_train
               (fun _ _ => lift (Raise ValueError)) "nelder" Demo.world
               (Demo.Model Demo.params)) as [_ Hmetric].
  - reflexivity.
  - vm_compute. reflexivity.
  - erewrite Hmetric; [reflexivity|discriminate|vm_compute; reflexivity
                      |vm_compute; reflexivity|reflexivity|reflexivity].
Defined.

(** The broken model on a window without rows: the [ValueError] is caught
    and the handler raises [IndexError]. *)
Lemma train_model_empty_window_witness :
  fst (train_model 3%positive {| columns := ["A0"; "Ph"]%string; rows := [] |}
         Demo.y_train Demo.error_metric "nelder" Demo.world)
  = Raise IndexError.
Proof.
  edestruct (train_model_empty_window 3%positive
               {| columns := ["A0"; "Ph"]%string; rows := [] |}
               Demo.y_train Demo.error_metric "nelder" Demo.world Demo.BrokenModel)
    as (_ & Hhandler & _).
  - reflexivity.
  - reflexivity.
  - erewrite Hhandler; [reflexivity|vm_compute; reflexivity].
Defined.

Lemma train_model_keeps_objects_witness :
  heap (snd (train_model 1%positive Demo.X_train Demo.y_train Demo.error_metric
               "nelder" Demo.world)) !! 2%positive
  = heap Demo.world !! 2%positive.
Proof.
  apply (train_model_keeps_objects 1%positive Demo.X_train Demo.y_train
           Demo.error_metric "nelder" Demo.world 2%positive).
  - exact demo_fit_preserves_others.
  - exact demo_fit_returns_self.
  - exact demo_predict_preserves_others.
  - exact demo_error_metric_preserves_heap.
  - by eexists.
Defined.

Lemma train_models_serial_keeps_objects_witness :
  heap (snd (train_models [1%positive; 2%positive] Demo.X_train Demo.y_train
               Demo.error_metric (Some [(PNone, [0; 1]); (PNone, [2])]) "nelder" 1 10
               Demo.world)) !! 1%positive
  = heap Demo.world !! 1%positive.
Proof.
  apply (train_models_serial_keeps_objects [1%positive; 2%positive] Demo.X_train
           Demo.y_train Demo.error_metric (Some [(PNone, [0; 1]); (PNone, [2])])
           "nelder" 10 Demo.world 1%positive).
  - exact demo_fit_preserves_others.
  - exact demo_fit_returns_self.
  - exact demo_predict_preserves_others.
  - exact demo_error_metric_preserves_heap.
  - by eexists.
Defined.

(** The second split names row 7 of a window of three rows. *)
Lemma train_models_serial_fail_fast_witness :
  fst (train_models [1%positive] Demo.X_train Demo.y_train Demo.error_metric
         (Some [(PNone, [0]); (PNone, [7])]) "nelder" 1 10 Demo.world)
  = Raise IndexError.
Proof.
  erewrite (train_models_serial_fail_fast [1%positive] Demo.X_train Demo.y_train
              Demo.error_metric (Some [(PNone, [0]); (PNone, [7])]) "nelder" 10
              Demo.world [([0], 1%positive)] ([7], 1%positive) []).
  - reflexivity.
  - reflexivity.
  - vm_compute. reflexivity.
  - vm_compute. reflexivity.
Defined.


Lemma train_models_long_target_witness :
  train_models [1%positive; 2%positive] Demo.X_train
    (Demo.y_train ++ [(PInt 3, PFloat (Fin (Qc_of_Z 23)))])
    Demo.error_metric None "nelder" 1 10 Demo.world
  = train_models [1%positive; 2%positive] Demo.X_train
      (take (length (rows Demo.X_train))
         (Demo.y_train ++ [(PInt 3, PFloat (Fin (Qc_of_Z 23)))]))
      Demo.error_metric None "nelder" 1 10 Demo.world.
Proof.
  apply (train_models_long_target [1%positive; 2%positive] Demo.X_train
           (Demo.y_train ++ [(PInt 3, PFloat (Fin (Qc_of_Z 23)))])
           Demo.error_metric None "nelder" 1 10 Demo.world).
  - by left.
  - simpl. lia.
Defined.

Lemma train_models_single_is_train_model_witness :
  train_models [1%positive] Demo.X_train Demo.y_train Demo.error_metric None
    "nelder" 1 10 Demo.world
  = train_model 1%positive Demo.X_train
      (take (length (rows Demo.X_train)) Demo.y_train) Demo.error_metric "nelder"
      Demo.world.
Proof.
  apply (train_models_single_is_train_model 1%positive Demo.X_train Demo.y_train
           Demo.error_metric "nelder" 10 Demo.world).
  simpl. lia.
Defined.

Lemma reduce_output_clean_witness :
  exists o,
    reduce_results_df
      [(PInt 0, Demo.record (Fin (Qc_of_Z 1)) (Inf false));
       (PInt 1, Demo.record (Fin (Qc_of_Z 1)) (Fin (Qc_of_Z (2 ^ 1023))));
       (PInt 2, Demo.record (Fin (Qc_of_Z 2)) (Fin (Qc_of_Z 5)))] 6 !! 1%nat = Some o /\
    error (snd o) = Inf false /\
    (val_isna (start_date (snd o)) = false /\ val_is_inf (start_date (snd o)) = false) /\
    (val_isna (end_date (snd o)) = false /\ val_is_inf (end_date (snd o)) = false) /\
    (val_isna (model (snd o)) = false /\ val_is_inf (model (snd o)) = false) /\
    (val_isna (model_result (snd o)) = false /\ val_is_inf (model_result (snd o)) = false) /\
    (val_isna (method (snd o)) = false /\ val_is_inf (method (snd o)) = false) /\
    (exists t, time (snd o) = Fin t) /\
    (exists q, error (snd o) = float_round 6 (Fin q)).
Proof.
  eexists. split; [vm_compute; reflexivity|]. split; [reflexivity|].
  eapply (reduce_output_clean
            [(PInt 0, Demo.record (Fin (Qc_of_Z 1)) (Inf false));
             (PInt 1, Demo.record (Fin (Qc_of_Z 1)) (Fin (Qc_of_Z (2 ^ 1023))));
             (PInt 2, Demo.record (Fin (Qc_of_Z 2)) (Fin (Qc_of_Z 5)))] 6).
  eapply (list_elem_of_lookup_2 _ 1%nat). vm_compute. reflexivity.
Defined.

Lemma reduce_best_first_witness :
  exists o,
    reduce_results_df
      [(PInt 0, Demo.record (Fin (Qc_of_Z 1)) (Fin (Qc_of_Z 7)));
       (PInt 1, Demo.record (Fin (Qc_of_Z 2)) (Fin (Qc_of_Z 5)))] 6 !! 0%nat = Some o /\
    float_le (error (snd o)) (float_round 6 (Fin (Qc_of_Z 7))).
Proof.
  eexists. split; [vm_compute; reflexivity|].
  eapply (reduce_best_first
            [(PInt 0, Demo.record (Fin (Qc_of_Z 1)) (Fin (Qc_of_Z 7)));
             (PInt 1, Demo.record (Fin (Qc_of_Z 2)) (Fin (Qc_of_Z 5)))] 6 _
            (PInt 0) (Demo.record (Fin (Qc_of_Z 1)) (Fin (Qc_of_Z 7)))).
  - vm_compute. reflexivity.
  - left.
  - reflexivity.
  - reflexivity.
Defined.

Lemma reduce_errors_order_independent_witness :
  (fun o => error (snd o)) <$>
    reduce_results_df
      [(PInt 0, Demo.record (Fin (Qc_of_Z 1)) (Fin (Qc_of_Z 7)));
       (PInt 1, Demo.record (Fin (Qc_of_Z 2)) (Fin (Qc_of_Z 5)))] 6
  = (fun o => error (snd o)) <$>
    reduce_results_df
      [(PInt 1, Demo.record (Fin (Qc_of_Z 2)) (Fin (Qc_of_Z 5)));
       (PInt 0, Demo.record (Fin (Qc_of_Z 1)) (Fin (Qc_of_Z 7)))] 6.
Proof.
  apply (reduce_errors_order_independent
           [(PInt 0, Demo.record (Fin (Qc_of_Z 1)) (Fin (Qc_of_Z 7)));
            (PInt 1, Demo.record (Fin (Qc_of_Z 2)) (Fin (Qc_of_Z 5)))]
           [(PInt 1, Demo.record (Fin (Qc_of_Z 2)) (Fin (Qc_of_Z 5)));
            (PInt 0, Demo.record (Fin (Qc_of_Z 1)) (Fin (Qc_of_Z 7)))] 6).
  apply perm_swap.
Defined.

Lemma reduce_results_df_idempotent_witness :
  reduce_results_df
    (reduce_results_df
       [(PInt 0, Demo.record (Fin (Qc_of_Z 2))
                   (Fin (Q2Qc (8895942329546431 # 72057594037927936))));
        (PInt 1, Demo.record (Fin (Qc_of_Z 1)) (Fin (Qc_of_Z 5)))] 5) 5
  = reduce_results_df
      [(PInt 0, Demo.record (Fin (Qc_of_Z 2))
                  (Fin (Q2Qc (8895942329546431 # 72057594037927936))));
       (PInt 1, Demo.record (Fin (Qc_of_Z 1)) (Fin (Qc_of_Z 5)))] 5.
Proof.
  apply (reduce_results_df_idempotent
           [(PInt 0, Demo.record (Fin (Qc_of_Z 2))
                       (Fin (Q2Qc (8895942329546431 # 72057594037927936))));
            (PInt 1, Demo.record (Fin (Qc_of_Z 1)) (Fin (Qc_of_Z 5)))] 5).
  intros o Ho. apply list_elem_of_lookup in Ho as [n Hn].
  destruct n as [|[|n]]; vm_compute in Hn; [| |discriminate].
  - injection Hn as <-. split; [eexists; reflexivity|]. vm_compute. table_eq.
  - injection Hn as <-. split; [eexists; reflexivity|]. vm_compute. table_eq.
Defined.
